(** * consola: the reporter pipeline (box renderer, Basic and Fancy reporters)

    A shallow embedding of [src/utils/box.ts], [src/reporters/basic.ts] and
    [src/reporters/fancy.ts].  JavaScript strings are sequences of UTF-16
    code units, numbers that the code uses as counts are integers, and a
    JavaScript exception is an explicit [Throw] outcome. *)

From Stdlib Require Import ZArith Lia List Ascii String.
From stdpp Require Import base option list gmap.

Local Open Scope Z_scope.

(** ** JavaScript strings *)

(** A string is the list of its UTF-16 code units, so that [length] is the
    [.length] of the source. *)
Abbreviation jsstring := (list N).

(** An ASCII literal as a JavaScript string. *)
Definition lit (s : string) : jsstring :=
  map N_of_ascii (list_ascii_of_string s).

Definition NL : N := 10%N.
Definition SP : N := 32%N.
Definition BACKTICK : N := 96%N.
Definition ESC : N := 27%N.

(** [s.length] as a number. *)
Definition len (s : jsstring) : Z := Z.of_nat (length s).

(** Truthiness of a string: only the empty string is falsy. *)
Definition truthy (s : jsstring) : bool :=
  match s with [] => false | _ :: _ => true end.

(** ** Exceptions *)

Inductive js_error : Type :=
| RangeError
| TypeError.

Inductive completion (A : Type) : Type :=
| Normal (a : A)
| Throw (e : js_error).

Arguments Normal {A} a.
Arguments Throw {A} e.

Definition bind {A B : Type} (c : completion A) (k : A -> completion B)
  : completion B :=
  match c with
  | Normal a => k a
  | Throw e => Throw e
  end.

Notation "'let!' x ':=' c 'in' k" := (bind c (fun x => k))
  (at level 10, x name, c at level 100, k at level 200).

(** The value of a computation that returns, [d] for one that throws. *)
Definition returned {A : Type} (d : A) (c : completion A) : A :=
  match c with
  | Normal a => a
  | Throw _ => d
  end.

(** Runs the computations of a list in order; the first exception wins. *)
Fixpoint sequence {A : Type} (cs : list (completion A)) : completion (list A) :=
  match cs with
  | [] => Normal []
  | c :: rest =>
      let! a := c in
      let! others := sequence rest in
      Normal (a :: others)
  end.

(** ** String primitives *)

(** [count] copies of a string. *)
Definition copies (count : Z) (str : jsstring) : jsstring :=
  concat (replicate (Z.to_nat count) str).

(** [s.repeat(count)]: a negative count raises a RangeError. *)
Definition js_repeat (s : jsstring) (count : Z) : completion jsstring :=
  if count <? 0 then Throw RangeError
  else Normal (copies count s).

(** [s.split("\n")]: the empty string splits into one empty line. *)
Fixpoint split_nl (s : jsstring) : list jsstring :=
  match s with
  | [] => [[]]
  | c :: rest =>
      if N.eqb c NL then [] :: split_nl rest
      else match split_nl rest with
           | line :: lines => (c :: line) :: lines
           | [] => [[c]]
           end
  end.

(** [xs.join(sep)]. *)
Fixpoint join (sep : jsstring) (xs : list jsstring) : jsstring :=
  match xs with
  | [] => []
  | [x] => x
  | x :: rest => x ++ sep ++ join sep rest
  end.

(** [Math.max(...xs)] for a non-empty list of string lengths (which are
    never negative). *)
Definition max_length (xs : list Z) : Z := foldr Z.max 0 xs.

(** ** Collaborators outside [src/]

    The reporters call helpers of this repository that are not part of the
    sources at hand ([stripAnsi] of utils/string, [parseStack] of
    utils/error) and library functions (colorette, string-width, node's
    [formatWithOptions], [Date.toLocaleTimeString],
    [String.toUpperCase]).  They are the fields of an environment that
    every definition below takes as a parameter. *)

Definition colorizer := jsstring -> jsstring.

(** A value that can appear among the arguments of a log call or as the
    cause of an error. Objects live in a store and are named by their
    address, so that an object can (indirectly) refer to itself. *)
Inductive value : Type :=
| VString (s : jsstring)
| VNumber (n : Z)
| VObject (addr : nat).

(** The fields of an object that the error formatter reads. [None] is
    [undefined]. *)
Record object : Type := {
  o_message : option jsstring;
  o_stack : option jsstring;
  o_cause : option value;
}.

Definition store := nat -> object.

Record FormatOptions : Type := {
  columns : Z;
  date : bool;
  errorLevel : option Z;
}.

Record Env : Type := {
  stripAnsi : jsstring -> jsstring;
  parseStack : jsstring -> list jsstring;
  stringWidth : jsstring -> Z;
  (* colorette[name] *)
  colorette : jsstring -> option colorizer;
  gray : colorizer;
  cyan : colorizer;
  black : colorizer;
  white : colorizer;
  bgWhite : colorizer;
  formatWithOptions : store -> FormatOptions -> list value -> jsstring;
  toLocaleTimeString : Z -> jsstring;
  toUpperCase : jsstring -> jsstring;
  (* isUnicodeSupported() *)
  unicode : bool;
  (* the stack captured by [new Error(message)] at format time *)
  captureStack : jsstring -> jsstring;
}.

(** ** utils/box.ts *)

Record BoxBorderStyle : Type := {
  tl : jsstring;
  tr : jsstring;
  bl : jsstring;
  br : jsstring;
  h : jsstring;
  v : jsstring;
}.

Definition glyphs (a b c d e f : N) : BoxBorderStyle :=
  {| tl := [a]; tr := [b]; bl := [c]; br := [d]; h := [e]; v := [f] |}.

Definition boxStylePresets : gmap jsstring BoxBorderStyle :=
  list_to_map [
    (lit "solid", glyphs 0x250C 0x2510 0x2514 0x2518 0x2500 0x2502);
    (lit "double", glyphs 0x2554 0x2557 0x255A 0x255D 0x2550 0x2551);
    (lit "double-single", glyphs 0x2553 0x2556 0x2559 0x255C 0x2500 0x2551);
    (lit "double-single-rounded",
      glyphs 0x256D 0x256E 0x2570 0x256F 0x2500 0x2551);
    (lit "single-thick", glyphs 0x250F 0x2513 0x2517 0x251B 0x2501 0x2503);
    (lit "single-double", glyphs 0x2552 0x2555 0x2558 0x255B 0x2550 0x2502);
    (lit "single-double-rounded",
      glyphs 0x256D 0x256E 0x2570 0x256F 0x2550 0x2502);
    (lit "rounded", glyphs 0x256D 0x256E 0x2570 0x256F 0x2500 0x2502)
  ]%N.

(** [borderStyle]: the name of a preset or an explicit glyph record. *)
Inductive border_style : Type :=
| Preset (name : jsstring)
| Explicit (glyph : BoxBorderStyle).

Inductive valign_t : Type :=
| Top
| Center
| Bottom.

Record BoxStyle : Type := {
  borderColor : jsstring;
  borderStyle : border_style;
  valign : valign_t;
  padding : Z;
}.

Record BoxOpts : Type := {
  title : option jsstring;
  style : option BoxStyle;
}.

Definition defaultStyle : BoxStyle := {|
  borderColor := lit "white";
  borderStyle := Preset (lit "solid");
  valign := Center;
  padding := 2;
|}.

(** A style with another padding. *)
Definition with_padding (st : BoxStyle) (p : Z) : BoxStyle :=
  {| borderColor := borderColor st; borderStyle := borderStyle st;
     valign := valign st; padding := p |}.

(** No glyph of the border holds a line break. *)
Definition single_line_border (b : BoxBorderStyle) : Prop :=
  (NL ∉ tl b) /\ (NL ∉ tr b) /\ (NL ∉ bl b) /\ (NL ∉ br b)
  /\ (NL ∉ h b) /\ (NL ∉ v b).

(** The glyph record that the spread [{...(preset or record)}] yields;
    [None] stands for the empty object of an unknown preset name. *)
Definition resolve_border (b : border_style) : option BoxBorderStyle :=
  match b with
  | Preset name => boxStylePresets !! name
  | Explicit g => Some g
  end.

(** The loop that passes every glyph through the border color. *)
Definition colorize_border (color : colorizer) (b : BoxBorderStyle)
  : BoxBorderStyle :=
  {| tl := color (tl b); tr := color (tr b); bl := color (bl b);
     br := color (br b); h := color (h b); v := color (v b) |}.

(** [padding % 2 === 0 ? padding : padding + 1]; [%] truncates like
    [Z.rem]. *)
Definition paddingOffset (padding : Z) : Z :=
  if Z.rem padding 2 =? 0 then padding else padding + 1.

Section Box.
Context (E : Env).

(** [opts.title] when it is truthy. *)
Definition given_title (o : BoxOpts) : option jsstring :=
  match title o with
  | Some t => if truthy t then Some t else None
  | None => None
  end.

Definition box_width (textLines : list jsstring) (po : Z) : Z :=
  max_length (map len textLines) + po.

(** A horizontal rule between two corners. *)
Definition rule_line (left_corner rule right_corner : jsstring) (n : Z)
  : completion jsstring :=
  let! fill := js_repeat rule n in
  Normal (left_corner ++ fill ++ right_corner).

(** The top line, with the title when there is one. *)
Definition top_line (b : BoxBorderStyle) (t : option jsstring)
    (width po : Z) : completion jsstring :=
  match t with
  | Some t =>
      let! left := js_repeat (h b) ((width - len (stripAnsi E t)) / 2) in
      let! right :=
        js_repeat (h b)
          (width - len (stripAnsi E t) - len (stripAnsi E left) + po) in
      Normal (tl b ++ left ++ t ++ right ++ tr b)
  | None => rule_line (tl b) (h b) (tr b) (width + po)
  end.

Definition valignOffset (a : valign_t) (height lines po : Z) : Z :=
  match a with
  | Center => (height - lines) / 2
  | Top => height - lines - po
  | Bottom => height - lines
  end.

(** The body of the loop over the rows [0 <= i < height]. *)
Definition middle_line (b : BoxBorderStyle) (textLines : list jsstring)
    (width po off i : Z) : completion jsstring :=
  if (i <? off) || (off + Z.of_nat (length textLines) <=? i) then
    let! blank := js_repeat [SP] (width + po) in
    Normal (v b ++ blank ++ v b)
  else
    match textLines !! Z.to_nat (i - off) with
    | None => Throw TypeError
    | Some line =>
        let! left := js_repeat [SP] po in
        let! right := js_repeat [SP] (width - len (stripAnsi E line)) in
        Normal (v b ++ left ++ line ++ right ++ v b)
    end.

(** [{ ...defaultStyle, ..._opts.style }] *)
Definition resolved_style (_opts : BoxOpts) : BoxStyle :=
  default defaultStyle (style _opts).

(** The glyphs of the border, each one passed through the border color
    ([colorette[borderColor]], or the identity when there is no such
    color); [None] for a preset name that is not in the table. *)
Definition border_glyphs (st : BoxStyle) : option BoxBorderStyle :=
  match resolve_border (borderStyle st) with
  | Some preset =>
      Some (colorize_border (default id (colorette E (borderColor st))) preset)
  | None => None
  end.

(** The array [boxLines] at the end of [box]. Reading a glyph of an
    unknown preset raises a TypeError. *)
Definition box_lines (text : jsstring) (_opts : BoxOpts)
  : completion (list jsstring) :=
  let st := resolved_style _opts in
  let textLines := split_nl text in
  match border_glyphs st with
  | None => Throw TypeError
  | Some b =>
      let po := paddingOffset (padding st) in
      let height := Z.of_nat (length textLines) + po in
      let width := box_width textLines po in
      let widthOffset := width + po in
      let! top := top_line b (given_title _opts) width po in
      let off := valignOffset (valign st) height (Z.of_nat (length textLines)) po in
      let! middle :=
        sequence (map (middle_line b textLines width po off) (seqZ 0 height)) in
      let! bottom := rule_line (bl b) (h b) (br b) widthOffset in
      Normal (top :: middle ++ [bottom])
  end.

Definition box (text : jsstring) (_opts : BoxOpts) : completion jsstring :=
  let! boxLines := box_lines text _opts in
  Normal (join [NL] boxLines).

End Box.


(** ** Log records, options and output streams *)

Record LogObject : Type := {
  log_type : jsstring;
  log_level : Z;
  log_args : list value;
  log_tag : jsstring;
  log_date : Z;
  log_message : option jsstring;
  log_title : option jsstring;
  log_style : option BoxStyle;
  log_badge : option bool;
  log_icon : option jsstring;
}.

Inductive stream_id : Type :=
| ProcessStdout
| ProcessStderr
| UserStream (n : nat).

#[global] Instance stream_id_eq_dec : EqDecision stream_id.
Proof. solve_decision. Defined.

Record stream : Type := {
  sid : stream_id;
  stream_columns : option Z;
}.

(** [ctx.options.formatOptions]: every key may be absent. *)
Record PartialFormatOptions : Type := {
  fo_columns : option Z;
  fo_date : option bool;
  fo_errorLevel : option Z;
}.

Record ConsolaOptions : Type := {
  stdout : option stream;
  stderr : option stream;
  formatOptions : PartialFormatOptions;
}.

(** What has been written to every stream, oldest chunk first. *)
Definition world := stream_id -> list jsstring.

(** Modelled from the spec: [writeStream] of utils/stream, which is not
    under [src/], is the stream write primitive; a write delivers its data
    to the given stream, after everything written to it before. *)
Definition writeStream (data : jsstring) (s : stream) (w : world) : world :=
  fun i => if decide (i = sid s) then w i ++ [data] else w i.

(** ** Recursion through the cause chain

    [formatError] calls itself on [err.cause]; the recursion is driven by
    a store that may be cyclic, so it takes fuel: the result is [None]
    when the call nests deeper than [fuel]. *)
Definition outcome (A : Type) : Type := option (completion A).

Definition obind {A B : Type} (c : outcome A) (k : A -> outcome B)
  : outcome B :=
  match c with
  | Some (Normal a) => k a
  | Some (Throw e) => Some (Throw e)
  | None => None
  end.

Notation "'let!!' x ':=' c 'in' k" := (obind c (fun x => k))
  (at level 10, x name, c at level 100, k at level 200).

Definition level_of (opts : FormatOptions) : Z :=
  match errorLevel opts with
  | Some l => l
  | None => 0
  end.

Definition with_errorLevel (opts : FormatOptions) (l : Z) : FormatOptions :=
  {| columns := columns opts; date := date opts; errorLevel := Some l |}.

(** Truthiness of a value. *)
Definition value_truthy (x : value) : bool :=
  match x with
  | VString s => truthy s
  | VNumber n => negb (n =? 0)
  | VObject _ => true
  end.

Definition message_of (st : store) (x : value) : option jsstring :=
  match x with
  | VObject a => o_message (st a)
  | _ => None
  end.

Definition stack_of (st : store) (x : value) : option jsstring :=
  match x with
  | VObject a => o_stack (st a)
  | _ => None
  end.

Definition cause_of (st : store) (x : value) : option value :=
  match x with
  | VObject a => o_cause (st a)
  | _ => None
  end.

(** [err.cause] when it is truthy. *)
Definition truthy_cause (st : store) (x : value) : option value :=
  match cause_of st x with
  | Some c => if value_truthy c then Some c else None
  | None => None
  end.

(** [cause_depth st err n]: following [cause] from [err] ends after [n]
    steps. *)
Inductive cause_depth (st : store) : value -> nat -> Prop :=
| depth_end err :
    truthy_cause st err = None -> cause_depth st err 0
| depth_step err c n :
    truthy_cause st err = Some c -> cause_depth st c n ->
    cause_depth st err (S n).

Definition bracket (x : jsstring) : jsstring :=
  if truthy x then lit "[" ++ x ++ lit "]" else [].

(** ** The methods every reporter inherits from BasicReporter *)

Section Inherited.
Context (E : Env).
(* [this.formatStack], which FancyReporter overrides *)
Context (this_formatStack : jsstring -> FormatOptions -> completion jsstring).

(** [err.message ?? formatWithOptions(opts, err)] *)
Definition message_text (st : store) (err : value) (opts : FormatOptions)
  : jsstring :=
  match message_of st err with
  | Some m => m
  | None => formatWithOptions E st opts [err]
  end.

(** [err.stack ? this.formatStack(err.stack, opts) : ""] *)
Definition stack_text (st : store) (err : value) (opts : FormatOptions)
  : completion jsstring :=
  match stack_of st err with
  | Some s => if truthy s then this_formatStack s opts else Normal []
  | None => Normal []
  end.

Definition causedPrefix (opts : FormatOptions) : completion jsstring :=
  if 0 <? level_of opts then
    let! pad := js_repeat (lit "  ") (level_of opts) in
    Normal (pad ++ lit "[cause]: ")
  else Normal [].

Fixpoint formatError (fuel : nat) (st : store) (err : value)
    (opts : FormatOptions) : outcome jsstring :=
  match fuel with
  | O => None
  | S fuel' =>
      let message := message_text st err opts in
      let!! stack := Some (stack_text st err opts) in
      let!! prefix := Some (causedPrefix opts) in
      let!! causedError :=
        match truthy_cause st err with
        | Some c =>
            let!! inner :=
              formatError fuel' st c
                (with_errorLevel opts (level_of opts + 1)) in
            Some (Normal ([NL; NL] ++ inner))
        | None => Some (Normal [])
        end in
      Some (Normal (prefix ++ message ++ [NL] ++ stack ++ causedError))
  end.

(** [arg && typeof arg.stack === "string"] *)
Definition has_stack (st : store) (arg : value) : bool :=
  value_truthy arg && bool_decide (is_Some (stack_of st arg)).

Fixpoint map_args (fuel : nat) (st : store) (args : list value)
    (opts : FormatOptions) : outcome (list value) :=
  match args with
  | [] => Some (Normal [])
  | arg :: rest =>
      let!! arg' :=
        if has_stack st arg then
          let!! text := formatError fuel st arg opts in
          Some (Normal (VString text))
        else Some (Normal arg) in
      let!! rest' := map_args fuel st rest opts in
      Some (Normal (arg' :: rest'))
  end.

Definition formatArgs (fuel : nat) (st : store) (args : list value)
    (opts : FormatOptions) : outcome jsstring :=
  let!! _args := map_args fuel st args opts in
  Some (Normal (formatWithOptions E st opts _args)).

Definition formatDate (d : Z) (opts : FormatOptions) : jsstring :=
  if date opts then toLocaleTimeString E d else [].

Definition filterAndJoin (arr : list jsstring) : jsstring :=
  join [SP] (filter (fun x => truthy x = true) arr).

End Inherited.

Section Entry.
(* [this.formatLogObj] *)
Context (this_formatLogObj :
  nat -> store -> LogObject -> FormatOptions -> outcome jsstring).

Definition line_options (out : stream) (fo : PartialFormatOptions)
  : FormatOptions :=
  {| columns :=
       match fo_columns fo with
       | Some c => c
       | None => default 0 (stream_columns out)
       end;
     date := default false (fo_date fo);
     errorLevel := fo_errorLevel fo |}.

Definition formatLine (fuel : nat) (st : store) (logObj : LogObject)
    (options : ConsolaOptions) : outcome jsstring :=
  match stdout options with
  | None => Some (Throw TypeError)
  | Some out =>
      this_formatLogObj fuel st logObj
        (line_options out (formatOptions options))
  end.

Definition process_stdout : stream :=
  {| sid := ProcessStdout; stream_columns := None |}.

Definition process_stderr : stream :=
  {| sid := ProcessStderr; stream_columns := None |}.

(** The stream that [log] writes a record of the given level to. *)
Definition target (logObj : LogObject) (options : ConsolaOptions) : stream :=
  if log_level logObj <? 2
  then default process_stderr (stderr options)
  else default process_stdout (stdout options).

Definition log (fuel : nat) (st : store) (logObj : LogObject)
    (options : ConsolaOptions) (w : world) : outcome world :=
  let!! line := formatLine fuel st logObj options in
  Some (Normal (writeStream (line ++ [NL]) (target logObj options) w)).

End Entry.

Module BasicReporter.
Section Methods.
Context (E : Env).

Definition formatStack (stack : jsstring) (opts : FormatOptions)
  : completion jsstring :=
  let! indent := js_repeat (lit "  ") (level_of opts + 1) in
  Normal (indent ++ join ([NL] ++ indent) (parseStack E stack)).

Definition formatError := formatError E formatStack.

Definition formatArgs := formatArgs E formatStack.

Definition formatLogObj (fuel : nat) (st : store) (logObj : LogObject)
    (opts : FormatOptions) : outcome jsstring :=
  let!! message := formatArgs fuel st (log_args logObj) opts in
  if bool_decide (log_type logObj = lit "box") then
    Some (Normal
      ([NL] ++
       join [NL]
         (map (fun l => lit " > " ++ l)
            (filter (fun x => truthy x = true)
               (bracket (log_tag logObj)
                :: default [] (log_title logObj)
                :: split_nl message))) ++
       [NL]))
  else
    Some (Normal
      (filterAndJoin
         [bracket (log_type logObj); bracket (log_tag logObj); message])).

Definition formatLine := formatLine formatLogObj.

Definition log := log formatLogObj.

End Methods.
End BasicReporter.

(** ** reporters/fancy.ts *)

Definition TYPE_COLOR_MAP : gmap jsstring jsstring :=
  list_to_map [
    (lit "info", lit "cyan");
    (lit "fail", lit "red");
    (lit "success", lit "green");
    (lit "ready", lit "green");
    (lit "start", lit "magenta")
  ].

Definition LEVEL_COLOR_MAP : gmap Z jsstring :=
  list_to_map [ (0, lit "red"); (1, lit "yellow") ].

(** [a || b] where [a] is a table entry: a missing or empty entry gives
    [b]. *)
Definition or_else (a : option jsstring) (b : jsstring) : jsstring :=
  match a with
  | Some s => if truthy s then s else b
  | None => b
  end.

(** The tables are object literals, and [table[key]] also finds what an
    object inherits from [Object.prototype]: for these keys a table
    without an entry of its own yields the inherited member, which is a
    function (the prototype itself for [__proto__]): truthy, and not a
    string. *)
Definition object_prototype_keys : list jsstring :=
  [lit "constructor"; lit "__defineGetter__"; lit "__defineSetter__";
   lit "hasOwnProperty"; lit "__lookupGetter__"; lit "__lookupSetter__";
   lit "isPrototypeOf"; lit "propertyIsEnumerable"; lit "toString";
   lit "valueOf"; lit "__proto__"; lit "toLocaleString"].

(** What a lookup in a table of strings finds. *)
Inductive member : Type :=
| Text (s : jsstring)
| Inherited (key : jsstring).

(** [table[key]], given the entry of the table itself; [None] is
    [undefined]. *)
Definition get_member (own : option jsstring) (key : jsstring)
  : option member :=
  match own with
  | Some s => Some (Text s)
  | None =>
      if bool_decide (key ∈ object_prototype_keys)
      then Some (Inherited key)
      else None
  end.

(** An inherited member as a property key, that is, as a string: the
    source text of a native function as node gives it, where the
    function behind [constructor] is named [Object]. *)
Definition inherited_text (key : jsstring) : jsstring :=
  if bool_decide (key = lit "__proto__") then lit "[object Object]"
  else lit "function "
       ++ (if bool_decide (key = lit "constructor") then lit "Object" else key)
       ++ lit "() { [native code] }".

Definition LPAREN : N := 40%N.
Definition RPAREN : N := 41%N.

(** The characters that [.] does not match. *)
Definition is_line_terminator (c : N) : bool :=
  (c =? 10)%N || (c =? 13)%N || (c =? 0x2028)%N || (c =? 0x2029)%N.

(** The longest prefix that [.*] can match, and what follows it. *)
Fixpoint dot_run (s : jsstring) : jsstring * jsstring :=
  match s with
  | [] => ([], [])
  | c :: rest =>
      if is_line_terminator c then ([], s)
      else let (run, after) := dot_run rest in (c :: run, after)
  end.

(** Splits a string around its last closing parenthesis. *)
Fixpoint last_close (s : jsstring) : option (jsstring * jsstring) :=
  match s with
  | [] => None
  | c :: rest =>
      match last_close rest with
      | Some (m, post) => Some (c :: m, post)
      | None => if (c =? RPAREN)%N then Some ([], rest) else None
      end
  end.

(** What [(.+)\)] matches right after an opening parenthesis: the group
    and the text after the match. *)
Definition match_group (s : jsstring) : option (jsstring * jsstring) :=
  let (run, after) := dot_run s in
  match last_close run with
  | Some (c :: m, post) => Some (c :: m, post ++ after)
  | _ => None
  end.

(** The longest prefix of spaces, and what follows it. *)
Fixpoint spaces_run (s : jsstring) : jsstring * jsstring :=
  match s with
  | [] => ([], [])
  | c :: rest =>
      if (c =? SP)%N then let (run, after) := spaces_run rest in (c :: run, after)
      else ([], s)
  end.

(** The longest prefix without a backtick, and what follows it. *)
Fixpoint until_backtick (s : jsstring) : jsstring * jsstring :=
  match s with
  | [] => ([], [])
  | c :: rest =>
      if (c =? BACKTICK)%N then ([], s)
      else let (m, after) := until_backtick rest in (c :: m, after)
  end.

Module FancyReporter.
Section Methods.
Context (E : Env).

(** [s(c, fallback)] *)
Definition s (c fallback : N) : jsstring :=
  if unicode E then [c] else [fallback].

Definition TYPE_ICONS : gmap jsstring jsstring :=
  list_to_map [
    (lit "error", s 0x2716 0xD7);
    (lit "fatal", s 0x2716 0xD7);
    (lit "ready", s 0x2714 0x221A);
    (lit "warn", s 0x26A0 0x203C);
    (lit "info", s 0x2139 0x69);
    (lit "success", s 0x2714 0x221A);
    (lit "debug", s 0x2699 0x44);
    (lit "trace", s 0x2192 0x2192);
    (lit "fail", s 0x2716 0xD7);
    (lit "start", s 0x25D0 0x6F);
    (lit "log", [])
  ]%N.

(** [line.replace(/^at +/, (m) => colors.gray(m))] *)
Definition replace_at (line : jsstring) : jsstring :=
  match line with
  | 97%N :: 116%N :: rest =>
      match spaces_run rest with
      | (sp :: sps, after) => gray E (97%N :: 116%N :: sp :: sps) ++ after
      | _ => line
      end
  | _ => line
  end.

(** [line.replace(/\((.+)\)/, (_, m) => `(${colors.cyan(m)})`)]: only
    the leftmost match is replaced. *)
Fixpoint replace_paren (line : jsstring) : jsstring :=
  match line with
  | [] => []
  | c :: rest =>
      if (c =? LPAREN)%N then
        match match_group rest with
        | Some (m, after) => [LPAREN] ++ cyan E m ++ [RPAREN] ++ after
        | None => c :: replace_paren rest
        end
      else c :: replace_paren rest
  end.

(** The override takes the stack only; the options that the inherited
    [formatError] passes are dropped. *)
Definition formatStack (stack : jsstring) (_ : FormatOptions)
  : completion jsstring :=
  Normal
    ([NL] ++
     join [NL]
       (map (fun line => lit "  " ++ replace_paren (replace_at line))
          (parseStack E stack))).

Definition formatError := formatError E formatStack.

Definition formatArgs := formatArgs E formatStack.

(** [str.replace(/`([^`]+)`/gm, (_, m) => colors.cyan(m))], scanning
    from the left; [fuel] bounds the number of characters looked at. *)
Fixpoint highlight (fuel : nat) (str : jsstring) : jsstring :=
  match fuel with
  | O => str
  | S fuel' =>
      match str with
      | [] => []
      | c :: rest =>
          if (c =? BACKTICK)%N then
            match until_backtick rest with
            | (m0 :: m, _ :: after) => cyan E (m0 :: m) ++ highlight fuel' after
            | _ => c :: highlight fuel' rest
            end
          else c :: highlight fuel' rest
      end
  end.

Definition highlightBackticks (str : jsstring) : jsstring :=
  highlight (length str) str.

(** [colors[color] || colors.white]; a color that is not a string is
    turned into one to serve as the key. *)
Definition getColor (color : member) : colorizer :=
  match color with
  | Text name => default (white E) (colorette E name)
  | Inherited key => default (white E) (colorette E (inherited_text key))
  end.

(** [color[0].toUpperCase()] raises a TypeError when [color[0]] is
    undefined: on the empty string, and on an inherited member. *)
Definition getBgColor (color : member) : completion colorizer :=
  match color with
  | Text [] => Throw TypeError
  | Text (c :: rest) =>
      Normal (default (bgWhite E)
                (colorette E (lit "bg" ++ toUpperCase E [c] ++ rest)))
  | Inherited _ => Throw TypeError
  end.

(** [TYPE_COLOR_MAP[type] || LEVEL_COLOR_MAP[level] || "gray"]. The key
    of the level table is a number, which names no inherited member. *)
Definition typeColor (logObj : LogObject) : member :=
  match get_member (TYPE_COLOR_MAP !! log_type logObj) (log_type logObj) with
  | Some (Inherited key) => Inherited key
  | Some (Text name) =>
      if truthy name then Text name
      else Text (or_else (LEVEL_COLOR_MAP !! log_level logObj) (lit "gray"))
  | None => Text (or_else (LEVEL_COLOR_MAP !! log_level logObj) (lit "gray"))
  end.

(** In the test [typeof TYPE_ICONS[type] === "string"] an inherited
    member fails like a missing entry, so that the lookup is the one in
    the table itself. *)
Definition formatType (logObj : LogObject) (isBadge : bool)
    (opts : FormatOptions) : completion jsstring :=
  if isBadge then
    let! bg := getBgColor (typeColor logObj) in
    Normal (bg (black E (lit " " ++ toUpperCase E (log_type logObj) ++ lit " ")))
  else
    let _type :=
      match TYPE_ICONS !! log_type logObj with
      | Some icon => icon
      | None => or_else (log_icon logObj) (log_type logObj)
      end in
    Normal (if truthy _type then getColor (typeColor logObj) _type else []).

(** [(logObj.badge as boolean) ?? logObj.level < 2] *)
Definition isBadge (logObj : LogObject) : bool :=
  match log_badge logObj with
  | Some b => b
  | None => log_level logObj <? 2
  end.

Definition coloredDate (logObj : LogObject) (opts : FormatOptions) : jsstring :=
  let d := formatDate E (log_date logObj) opts in
  if truthy d then gray E d else d.

Definition tag (logObj : LogObject) : jsstring :=
  if truthy (log_tag logObj) then gray E (log_tag logObj) else [].

(** The [left] segment of the line, given the formatted type and the
    first line of the message. *)
Definition left (type message : jsstring) : jsstring :=
  filterAndJoin [type; highlightBackticks message].

(** The [right] segment of the line. *)
Definition right (logObj : LogObject) (opts : FormatOptions) : jsstring :=
  filterAndJoin
    (if negb (columns opts =? 0)
     then [tag logObj; coloredDate logObj opts]
     else [tag logObj]).

(** The first assignment to [line]. *)
Definition compose_line (l r : jsstring) (opts : FormatOptions)
  : completion jsstring :=
  let space := columns opts - stringWidth E l - stringWidth E r - 2 in
  if (0 <? space) && (80 <=? columns opts) then
    let! fill := js_repeat [SP] space in
    Normal (l ++ fill ++ r)
  else
    Normal ((if truthy r
             then gray E (lit "[" ++ r ++ lit "]") ++ [SP]
             else []) ++ l).

Definition formatLogObj (fuel : nat) (st : store) (logObj : LogObject)
    (opts : FormatOptions) : outcome jsstring :=
  let!! text := formatArgs fuel st (log_args logObj) opts in
  let message := default [] (head (split_nl text)) in
  let additional := tail (split_nl text) in
  if bool_decide (log_type logObj = lit "box") then
    Some (box E (highlightBackticks message)
            {| title := log_title logObj; style := log_style logObj |})
  else
    let badge := isBadge logObj in
    let!! type := Some (formatType logObj badge opts) in
    let l := left type message in
    let r := right logObj opts in
    let!! line := Some (compose_line l r opts) in
    let line :=
      line ++
      highlightBackticks
        (match additional with
         | [] => []
         | _ :: _ => [NL] ++ join [NL] additional
         end) in
    let!! line :=
      if bool_decide (log_type logObj = lit "trace") then
        let _err_stack :=
          captureStack E
            (lit "Trace: " ++ default (lit "undefined") (log_message logObj)) in
        let!! trace := Some (formatStack _err_stack opts) in
        Some (Normal (line ++ trace))
      else Some (Normal line) in
    Some (Normal (if badge then [NL] ++ line ++ [NL] else line)).

Definition formatLine := formatLine formatLogObj.

Definition log := log formatLogObj.

End Methods.
End FancyReporter.

(** ** Two concrete environments

    [plainEnv] is a terminal without color support, where every
    colorette function returns its argument; [ansiEnv] is a terminal with
    colors. Both read stacks and arguments in the same way. *)

Definition digit (n : Z) : N := Z.to_N (48 + n mod 10).

Definition two_digits (n : Z) : jsstring := [digit (n / 10); digit n].

(** A 24-hour clock, from a timestamp in milliseconds. *)
Definition clock (d : Z) : jsstring :=
  let secs := (d / 1000) mod 86400 in
  two_digits (secs / 3600) ++ lit ":" ++ two_digits (secs / 60 mod 60)
  ++ lit ":" ++ two_digits (secs mod 60).

Definition upper_unit (c : N) : N :=
  if ((97 <=? c) && (c <=? 122))%N then (c - 32)%N else c.

(** Modelled from the spec: [stripAnsi] of utils/string, which is not
    under [src/], removes the color and style escape sequences of a
    string before it is measured. The sequences are those that colorette
    writes: ESC, an opening bracket, digits and semicolons, and [m].
    [pending] holds, last unit first, the units of a sequence that is not
    complete yet; they are kept when the sequence turns out not to be
    one. *)
Definition continues_sequence (pending : jsstring) (c : N) : bool :=
  match pending with
  | [] => false
  | [_] => (c =? 91)%N
  | _ => ((48 <=? c) && (c <=? 57) || (c =? 59))%N
  end.

Definition ends_sequence (pending : jsstring) (c : N) : bool :=
  match pending with
  | _ :: _ :: _ => (c =? 109)%N
  | _ => false
  end.

Fixpoint strip_sgr (pending : jsstring) (str : jsstring) : jsstring :=
  match str with
  | [] => rev pending
  | c :: rest =>
      if continues_sequence pending c then strip_sgr (c :: pending) rest
      else if ends_sequence pending c then strip_sgr [] rest
      else rev pending
           ++ (if (c =? ESC)%N then strip_sgr [c] rest
               else c :: strip_sgr [] rest)
  end.

(** Modelled from the spec: [parseStack] of utils/error, which is not
    under [src/], parses a stack trace into its frame lines, in order: it
    discards the first line (the header with the error message) and the
    lines that are not the location of a frame. A location is a line
    that, without the white space around it, starts with [at] and a
    space. *)
Definition is_white_space (c : N) : bool :=
  ((9 <=? c) && (c <=? 13) || (c =? SP) || (c =? 0xA0) || (c =? 0xFEFF)
   || (c =? 0x2028) || (c =? 0x2029))%N.

Fixpoint trim_left (str : jsstring) : jsstring :=
  match str with
  | c :: rest => if is_white_space c then trim_left rest else str
  | [] => []
  end.

Definition trim (str : jsstring) : jsstring :=
  rev (trim_left (rev (trim_left str))).

Definition is_location (line : jsstring) : bool :=
  match line with
  | 97%N :: 116%N :: 32%N :: _ => true
  | _ => false
  end.

Definition frames (stack : jsstring) : list jsstring :=
  filter (fun line => is_location line = true)
    (map trim (tail (split_nl stack))).

Fixpoint decimal (fuel : nat) (n : Z) : jsstring :=
  match fuel with
  | O => []
  | S fuel' =>
      if n <? 10 then [digit n] else decimal fuel' (n / 10) ++ [digit n]
  end.

Definition show_number (n : Z) : jsstring :=
  (if n <? 0 then lit "-" else [])
  ++ decimal (S (Z.to_nat (Z.log2 (Z.abs n)))) (Z.abs n).

(** The text of the arguments, joined by a space; an object is shown by
    its message. *)
Definition show_value (st : store) (x : value) : jsstring :=
  match x with
  | VString str => str
  | VNumber n => show_number n
  | VObject a => default (lit "[object Object]") (o_message (st a))
  end.

Definition show_values (st : store) (_ : FormatOptions) (xs : list value)
  : jsstring :=
  join [SP] (map (show_value st) xs).

Definition plainEnv : Env := {|
  stripAnsi := strip_sgr [];
  parseStack := frames;
  stringWidth := fun str => len (strip_sgr [] str);
  colorette := fun _ => None;
  gray := id;
  cyan := id;
  black := id;
  white := id;
  bgWhite := id;
  formatWithOptions := show_values;
  toLocaleTimeString := clock;
  toUpperCase := map upper_unit;
  unicode := true;
  captureStack := fun message => lit "Error: " ++ message;
|}.

(** [ESC [ code m] *)
Definition sgr (code : string) : jsstring :=
  [ESC; 91%N] ++ lit code ++ [109%N].

Fixpoint starts_with (prefix str : jsstring) : bool :=
  match prefix, str with
  | [], _ => true
  | a :: prefix', b :: str' => (a =? b)%N && starts_with prefix' str'
  | _ :: _, [] => false
  end.

(** Every occurrence of [close] in a string replaced by [replace], from
    the left; [skip] counts the units of the occurrence at hand that are
    still to be dropped. *)
Fixpoint replace_close (close replace : jsstring) (skip : nat)
    (str : jsstring) : jsstring :=
  match str with
  | [] => []
  | c :: rest =>
      match skip with
      | S skip' => replace_close close replace skip' rest
      | O =>
          if starts_with close str
          then replace ++ replace_close close replace (length close - 1) rest
          else c :: replace_close close replace 0 rest
      end
  end.

(** A color of a terminal with colors, in the manner of colorette: the
    text between the opening and the closing sequence, where a closing
    sequence inside the text (looked for behind its first units) opens
    the color again; the empty text stays empty. *)
Definition paint (open close : string) : colorizer :=
  fun str =>
    if truthy str then
      let at_ := S (length (sgr open)) in
      sgr open ++ take at_ str
      ++ replace_close (sgr close) (sgr open) 0 (drop at_ str)
      ++ sgr close
    else [].

Definition palette : gmap jsstring colorizer :=
  list_to_map [
    (lit "black", paint "30" "39");
    (lit "red", paint "31" "39");
    (lit "green", paint "32" "39");
    (lit "yellow", paint "33" "39");
    (lit "blue", paint "34" "39");
    (lit "magenta", paint "35" "39");
    (lit "cyan", paint "36" "39");
    (lit "white", paint "37" "39");
    (lit "gray", paint "90" "39");
    (lit "bgRed", paint "41" "49");
    (lit "bgGreen", paint "42" "49");
    (lit "bgYellow", paint "43" "49");
    (lit "bgMagenta", paint "45" "49");
    (lit "bgCyan", paint "46" "49");
    (lit "bgWhite", paint "47" "49")
  ].

Definition ansiEnv : Env := {|
  stripAnsi := strip_sgr [];
  parseStack := frames;
  stringWidth := fun str => len (strip_sgr [] str);
  colorette := fun name => palette !! name;
  gray := paint "90" "39";
  cyan := paint "36" "39";
  black := paint "30" "39";
  white := paint "37" "39";
  bgWhite := paint "47" "49";
  formatWithOptions := show_values;
  toLocaleTimeString := clock;
  toUpperCase := map upper_unit;
  unicode := true;
  captureStack := fun message => lit "Error: " ++ message;
|}.


(** ** index.ts

    [createConsola] builds the options of a new instance and hands them
    to [_createConsola] of ./consola, which is not under [src/]; the
    model is the options object that it hands over (without [prompt],
    a lazy import). The flags of std-env, the levels of ./log.levels
    and [Number.parseInt] are parameters. *)

Module Index.

Record StdEnv : Type := {
  isDebug : bool;
  isTest : bool;
  isCI : bool;
}.

(** [LogLevels.Debug], [LogLevels.Warn] and [LogLevels.Info]. *)
Record LogLevels : Type := {
  Debug : Z;
  Warn : Z;
  Info_ : Z;
}.

Inductive reporter : Type :=
| NewBasicReporter
| NewFancyReporter
| Given (id : nat).

(** The keys of [options] that [createConsola] reads or overrides. *)
Record Options : Type := {
  level : option Z;
  reporters : option (list reporter);
}.

(** The object passed to [_createConsola]. *)
Record Created : Type := {
  created_level : Z;
  created_reporters : list reporter;
}.

Section CreateConsola.
(* std-env *)
Context (env : StdEnv).
(* ./log.levels *)
Context (levels : LogLevels).
(* Number.parseInt; [None] is NaN *)
Context (parseInt : jsstring -> option Z).

Definition _getDefaultLogLevel : Z :=
  if isDebug env then Debug levels
  else if isTest env then Warn levels
  else Info_ levels.

(** [Number.parseInt(value) || level]: NaN and 0 are falsy. *)
Definition parsed_or (value : jsstring) (level : Z) : Z :=
  match parseInt value with
  | Some n => if n =? 0 then level else n
  | None => level
  end.

(** [CONSOLA_LEVEL] is [process.env.CONSOLA_LEVEL]; [None] when it is
    not set. The spread of [options] comes last, so that its keys win;
    an empty list of reporters is truthy and is kept. *)
Definition createConsola (CONSOLA_LEVEL : option jsstring)
    (options : Options) : Created :=
  let level0 := _getDefaultLogLevel in
  let level1 :=
    match CONSOLA_LEVEL with
    | Some value => if truthy value then parsed_or value level0 else level0
    | None => level0
    end in
  let reporters0 :=
    match reporters options with
    | Some given => given
    | None =>
        [if isCI env || isTest env then NewBasicReporter else NewFancyReporter]
    end in
  {| created_level := default level1 (level options);
     created_reporters := default reporters0 (reporters options) |}.

End CreateConsola.

(** A decimal reading of [Number.parseInt]: white space, a sign, and
    the digits up to the first other character. *)
Fixpoint digits_value (acc : option Z) (str : jsstring) : option Z :=
  match str with
  | c :: rest =>
      if ((48 <=? c) && (c <=? 57))%N
      then digits_value (Some (10 * default 0 acc + (Z.of_N c - 48))) rest
      else acc
  | [] => acc
  end.

Definition parseDecimal (str : jsstring) : option Z :=
  match trim_left str with
  | 45%N :: rest => Z.opp <$> digits_value None rest
  | 43%N :: rest => digits_value None rest
  | rest => digits_value None rest
  end.

End Index.

(** ** Notions used in the statements *)

(** Two texts with one space between them, unless one of them is
    empty. *)
Definition spaced (a b : jsstring) : jsstring :=
  if truthy a then (if truthy b then a ++ [SP] ++ b else a) else b.

(** The color of a record by the fallback chain: the entry of the type
    table, else the entry of the level table, else gray. *)
Definition chain_color (logObj : LogObject) : jsstring :=
  match TYPE_COLOR_MAP !! log_type logObj with
  | Some color => color
  | None =>
      match LEVEL_COLOR_MAP !! log_level logObj with
      | Some color => color
      | None => lit "gray"
      end
  end.

(** A record with other arguments. *)
Definition with_args (logObj : LogObject) (args : list value) : LogObject :=
  {| log_type := log_type logObj;
     log_level := log_level logObj;
     log_args := args;
     log_tag := log_tag logObj;
     log_date := log_date logObj;
     log_message := log_message logObj;
     log_title := log_title logObj;
     log_style := log_style logObj;
     log_badge := log_badge logObj;
     log_icon := log_icon logObj |}.

(** A record with another [icon]. *)
Definition with_icon (logObj : LogObject) (icon : option jsstring)
  : LogObject :=
  {| log_type := log_type logObj;
     log_level := log_level logObj;
     log_args := log_args logObj;
     log_tag := log_tag logObj;
     log_date := log_date logObj;
     log_message := log_message logObj;
     log_title := log_title logObj;
     log_style := log_style logObj;
     log_badge := log_badge logObj;
     log_icon := icon |}.

(** ** Sample inputs *)

Definition sampleStack : jsstring :=
  lit "Error: boom" ++ [NL] ++ lit "    at foo (file.js:1:2)".

(** An error that is its own cause. *)
Definition selfCause : store :=
  fun _ =>
    {| o_message := Some (lit "boom");
       o_stack := Some sampleStack;
       o_cause := Some (VObject 0) |}.

(** An error at address 0 whose cause, at address 1, has no cause. *)
Definition oneCause : store :=
  fun a =>
    {| o_message := Some (if Nat.eqb a 0 then lit "boom" else lit "root");
       o_stack := Some sampleStack;
       o_cause := if Nat.eqb a 0 then Some (VObject 1) else None |}.

Definition noObjects : store :=
  fun _ => {| o_message := None; o_stack := None; o_cause := None |}.

Definition sampleOptions (cols : Z) (level : option Z) : FormatOptions :=
  {| columns := cols; date := true; errorLevel := level |}.

Definition sampleRecord (type : string) (level : Z) : LogObject :=
  {| log_type := lit type;
     log_level := level;
     log_args := [VString (lit "hello `world`")];
     log_tag := lit "app";
     log_date := 36000000;
     log_message := None;
     log_title := None;
     log_style := None;
     log_badge := None;
     log_icon := None |}.

Definition sampleConsola (cols : Z) : ConsolaOptions :=
  {| stdout := Some {| sid := UserStream 1; stream_columns := Some cols |};
     stderr := None;
     formatOptions :=
       {| fo_columns := None; fo_date := None; fo_errorLevel := None |} |}.

(** * Properties *)

(** ** Strings *)

Lemma split_nl_not_nil (str : jsstring) : split_nl str <> [].
Proof.
  destruct str as [|c rest]; simpl; [discriminate|].
  destruct (c =? NL)%N; [discriminate|].
  destruct (split_nl rest); discriminate.
Qed.

Lemma split_nl_length (str : jsstring) : (1 <= length (split_nl str))%nat.
Proof.
  pose proof (split_nl_not_nil str) as H.
  destruct (split_nl str); [congruence | simpl; lia].
Qed.

Lemma split_nl_single_lines (str : jsstring) :
  Forall (fun line => NL ∉ line) (split_nl str).
Proof.
  induction str as [|c rest IH]; simpl.
  - repeat constructor. apply not_elem_of_nil.
  - destruct (N.eqb_spec c NL) as [->|Hc].
    + constructor; [apply not_elem_of_nil | exact IH].
    + destruct (split_nl rest) as [|line lines].
      * repeat constructor. rewrite not_elem_of_cons.
        split; [congruence | apply not_elem_of_nil].
      * inversion IH; subst. constructor; [|assumption].
        rewrite not_elem_of_cons. split; [congruence | assumption].
Qed.

Lemma split_nl_line (line : jsstring) :
  NL ∉ line -> split_nl line = [line].
Proof.
  induction line as [|c rest IH]; intros H; simpl; [reflexivity|].
  apply not_elem_of_cons in H as [Hc Hrest].
  destruct (N.eqb_spec c NL) as [->|_]; [congruence|].
  rewrite (IH Hrest). reflexivity.
Qed.

Lemma split_nl_app (line rest : jsstring) :
  NL ∉ line -> split_nl (line ++ NL :: rest) = line :: split_nl rest.
Proof.
  induction line as [|c line IH]; intros H; simpl.
  - reflexivity.
  - apply not_elem_of_cons in H as [Hc Hline].
    destruct (N.eqb_spec c NL) as [->|_]; [congruence|].
    rewrite (IH Hline). reflexivity.
Qed.

Lemma split_join (rows : list jsstring) :
  rows <> [] -> Forall (fun row => NL ∉ row) rows ->
  split_nl (join [NL] rows) = rows.
Proof.
  induction rows as [|row rows IH]; intros Hne Hrows; [congruence|].
  inversion Hrows as [|? ? Hrow Hrest]; subst.
  destruct rows as [|row' rows].
  - simpl. apply split_nl_line, Hrow.
  - change (join [NL] (row :: row' :: rows))
      with (row ++ NL :: join [NL] (row' :: rows)).
    rewrite split_nl_app by exact Hrow.
    rewrite IH; [reflexivity | discriminate | exact Hrest].
Qed.

(** A boolean test for the absence of a code unit. *)
Lemma absent_check (x : N) (str : jsstring) :
  forallb (fun c => negb (c =? x)%N) str = true -> x ∉ str.
Proof.
  induction str as [|c rest IH]; simpl; intros H.
  - apply not_elem_of_nil.
  - apply andb_prop in H as [Hc Hrest]. rewrite not_elem_of_cons.
    split; [|auto]. intros <-. rewrite N.eqb_refl in Hc. discriminate.
Qed.

Lemma copies_single_line (count : Z) (str : jsstring) :
  NL ∉ str -> NL ∉ copies count str.
Proof.
  intros H. unfold copies.
  induction (Z.to_nat count) as [|n IH]; simpl.
  - apply not_elem_of_nil.
  - rewrite elem_of_app. tauto.
Qed.

Lemma copies_length (count : Z) (c : N) :
  0 <= count -> len (copies count [c]) = count.
Proof.
  intros H. unfold len, copies.
  rewrite <- (Z2Nat.id count) at 2 by exact H.
  f_equal. induction (Z.to_nat count) as [|n IH]; simpl; congruence.
Qed.

(** ** Exceptions *)

Lemma js_repeat_Normal (str out : jsstring) (count : Z) :
  js_repeat str count = Normal out -> 0 <= count /\ out = copies count str.
Proof.
  unfold js_repeat. destruct (Z.ltb_spec count 0); [discriminate|].
  intros [= <-]. split; [assumption | reflexivity].
Qed.

Lemma js_repeat_nonneg (str : jsstring) (count : Z) :
  0 <= count -> js_repeat str count = Normal (copies count str).
Proof.
  intros H. unfold js_repeat. destruct (Z.ltb_spec count 0); [lia | reflexivity].
Qed.

Lemma bind_Normal {A B : Type} (c : completion A) (k : A -> completion B)
    (b : B) :
  bind c k = Normal b -> exists a, c = Normal a /\ k a = Normal b.
Proof. destruct c as [a|e]; simpl; [eauto | discriminate]. Qed.

Lemma sequence_length {A : Type} (cs : list (completion A)) (rs : list A) :
  sequence cs = Normal rs -> length rs = length cs.
Proof.
  revert rs. induction cs as [|c cs IH]; simpl; intros rs H.
  - injection H as <-. reflexivity.
  - apply bind_Normal in H as (a & _ & H).
    apply bind_Normal in H as (others & Hothers & H).
    injection H as <-. simpl. f_equal. apply IH, Hothers.
Qed.

Lemma sequence_Forall {A B : Type} (P : B -> Prop) (f : A -> completion B)
    (xs : list A) (rs : list B) :
  (forall x r, f x = Normal r -> P r) ->
  sequence (map f xs) = Normal rs -> Forall P rs.
Proof.
  intros Hf. revert rs. induction xs as [|x xs IH]; simpl; intros rs H.
  - injection H as <-. constructor.
  - apply bind_Normal in H as (a & Ha & H).
    apply bind_Normal in H as (others & Hothers & H).
    injection H as <-. constructor; [eapply Hf, Ha | apply IH, Hothers].
Qed.

(** ** utils/box.ts *)

Lemma paddingOffset_odd (k : nat) :
  paddingOffset (2 * Z.of_nat k + 1) = 2 * Z.of_nat k + 2.
Proof.
  unfold paddingOffset.
  replace (Z.rem (2 * Z.of_nat k + 1) 2) with 1.
  - simpl. lia.
  - rewrite Z.rem_mod_nonneg by lia.
    rewrite Z.add_comm, Z.mul_comm, Z.mod_add by lia. reflexivity.
Qed.

Lemma paddingOffset_even (k : Z) : paddingOffset (2 * k) = 2 * k.
Proof.
  unfold paddingOffset.
  rewrite Z.mul_comm, Z.rem_mul by lia. reflexivity.
Qed.

Lemma paddingOffset_nonneg (p : Z) : 0 <= p -> 0 <= paddingOffset p.
Proof. unfold paddingOffset. destruct (Z.rem p 2 =? 0); lia. Qed.

(** The padding enters the computation through [paddingOffset] only. *)
Lemma box_same_paddingOffset (E : Env) (text : jsstring)
    (t : option jsstring) (st : BoxStyle) (p q : Z) :
  paddingOffset p = paddingOffset q ->
  box E text {| title := t; style := Some (with_padding st p) |}
  = box E text {| title := t; style := Some (with_padding st q) |}.
Proof.
  intros H. unfold box, box_lines, resolved_style, border_glyphs, given_title.
  simpl. rewrite H. reflexivity.
Qed.

Lemma box_lines_inv (E : Env) (text : jsstring) (_opts : BoxOpts)
    (rows : list jsstring) :
  box_lines E text _opts = Normal rows ->
  let st := resolved_style _opts in
  let textLines := split_nl text in
  let po := paddingOffset (padding st) in
  let height := Z.of_nat (length textLines) + po in
  let width := box_width textLines po in
  exists b top middle bottom,
    border_glyphs E st = Some b
    /\ top_line E b (given_title _opts) width po = Normal top
    /\ sequence
         (map (middle_line E b textLines width po
                 (valignOffset (valign st) height
                    (Z.of_nat (length textLines)) po))
            (seqZ 0 height)) = Normal middle
    /\ rule_line (bl b) (h b) (br b) (width + po) = Normal bottom
    /\ rows = top :: middle ++ [bottom].
Proof.
  unfold box_lines. intros H; simpl.
  destruct (border_glyphs E (resolved_style _opts)) as [b|]; [|discriminate].
  apply bind_Normal in H as (top & Htop & H).
  apply bind_Normal in H as (middle & Hmiddle & H).
  apply bind_Normal in H as (bottom & Hbottom & H).
  injection H as <-. exists b, top, middle, bottom. auto.
Qed.

Lemma rule_line_inv (lc rule rc out : jsstring) (n : Z) :
  rule_line lc rule rc n = Normal out ->
  0 <= n /\ out = lc ++ copies n rule ++ rc.
Proof.
  unfold rule_line. intros H.
  apply bind_Normal in H as (fill & Hfill & H).
  apply js_repeat_Normal in Hfill as [Hn ->].
  injection H as <-. auto.
Qed.

Lemma top_line_inv (E : Env) (b : BoxBorderStyle) (t : jsstring)
    (width po : Z) (out : jsstring) :
  top_line E b (Some t) width po = Normal out ->
  let L := (width - len (stripAnsi E t)) / 2 in
  let R :=
    width - len (stripAnsi E t) - len (stripAnsi E (copies L (h b))) + po in
  0 <= L /\ 0 <= R
  /\ out = tl b ++ copies L (h b) ++ t ++ copies R (h b) ++ tr b.
Proof.
  unfold top_line. intros H.
  apply bind_Normal in H as (left & Hleft & H).
  apply js_repeat_Normal in Hleft as [HL ->].
  apply bind_Normal in H as (right & Hright & H).
  apply js_repeat_Normal in Hright as [HR ->].
  injection H as <-. auto.
Qed.

Lemma top_line_single_line (E : Env) (b : BoxBorderStyle)
    (t : option jsstring) (width po : Z) (out : jsstring) :
  single_line_border b ->
  (forall title, t = Some title -> NL ∉ title) ->
  top_line E b t width po = Normal out -> NL ∉ out.
Proof.
  intros (Htl & Htr & _ & _ & Hh & _) Ht H.
  destruct t as [title|].
  - apply top_line_inv in H as (_ & _ & ->).
    specialize (Ht title eq_refl).
    rewrite !elem_of_app.
    pose proof (copies_single_line ((width - len (stripAnsi E title)) / 2) _ Hh).
    pose proof (copies_single_line
      (width - len (stripAnsi E title)
       - len (stripAnsi E (copies ((width - len (stripAnsi E title)) / 2) (h b)))
       + po) _ Hh).
    tauto.
  - apply rule_line_inv in H as (_ & ->).
    rewrite !elem_of_app.
    pose proof (copies_single_line (width + po) _ Hh). tauto.
Qed.

Lemma spaces_single_line (n : Z) : NL ∉ copies n [SP].
Proof.
  apply copies_single_line. rewrite not_elem_of_cons.
  split; [discriminate | apply not_elem_of_nil].
Qed.

Lemma middle_line_single_line (E : Env) (b : BoxBorderStyle)
    (textLines : list jsstring) (width po off i : Z) (out : jsstring) :
  single_line_border b ->
  Forall (fun line => NL ∉ line) textLines ->
  middle_line E b textLines width po off i = Normal out -> NL ∉ out.
Proof.
  intros (_ & _ & _ & _ & _ & Hv) Hlines. unfold middle_line.
  destruct ((i <? off) || (off + Z.of_nat (length textLines) <=? i)).
  - intros H. apply bind_Normal in H as (blank & Hblank & H).
    apply js_repeat_Normal in Hblank as [_ ->]. injection H as <-.
    rewrite !elem_of_app. pose proof (spaces_single_line (width + po)). tauto.
  - destruct (textLines !! Z.to_nat (i - off)) as [line|] eqn:Hline;
      [|discriminate].
    intros H. apply bind_Normal in H as (left & Hleft & H).
    apply js_repeat_Normal in Hleft as [_ ->].
    apply bind_Normal in H as (right & Hright & H).
    apply js_repeat_Normal in Hright as [_ ->]. injection H as <-.
    rewrite Forall_forall in Hlines.
    pose proof (Hlines line (list_elem_of_lookup_2 _ _ _ Hline)).
    rewrite !elem_of_app.
    pose proof (spaces_single_line po).
    pose proof (spaces_single_line (width - len (stripAnsi E line))). tauto.
Qed.

(** C7: a padding of 3 gives the same box as a padding of 4, and so does
    every odd padding [2k+1] with the even padding [2k+2] above it: the
    padding is replaced by [paddingOffset] before the width and the
    height are computed. *)
Theorem box_padding_normalized (E : Env) (text : jsstring)
    (t : option jsstring) (st : BoxStyle) :
  box E text {| title := t; style := Some (with_padding st 3) |}
  = box E text {| title := t; style := Some (with_padding st 4) |}
  /\ forall k : nat,
       paddingOffset (2 * Z.of_nat k + 1) = 2 * Z.of_nat k + 2
       /\ box E text
            {| title := t; style := Some (with_padding st (2 * Z.of_nat k + 1)) |}
          = box E text
              {| title := t;
                 style := Some (with_padding st (2 * Z.of_nat k + 2)) |}.
Proof.
  split.
  - apply box_same_paddingOffset. reflexivity.
  - intros k. split; [apply paddingOffset_odd|].
    apply box_same_paddingOffset.
    rewrite paddingOffset_odd.
    replace (2 * Z.of_nat k + 2) with (2 * (Z.of_nat k + 1)) by lia.
    rewrite paddingOffset_even. reflexivity.
Qed.

(** C10, as amended: when the padding is not negative and neither the
    title nor a glyph of the border holds a line break, the string that
    [box] returns splits into exactly [n + paddingOffset + 2] lines, where
    [n >= 1] is the number of lines of the text; the first of them is the
    top border and the last one the bottom border. *)
Theorem box_line_count (E : Env) (text : jsstring) (_opts : BoxOpts)
    (out : jsstring) (b : BoxBorderStyle) :
  let st := resolved_style _opts in
  let n := length (split_nl text) in
  let po := paddingOffset (padding st) in
  let width := box_width (split_nl text) po in
  box E text _opts = Normal out ->
  border_glyphs E st = Some b ->
  0 <= padding st ->
  single_line_border b ->
  (forall t, given_title _opts = Some t -> NL ∉ t) ->
  (1 <= n)%nat
  /\ Z.of_nat (length (split_nl out)) = Z.of_nat n + po + 2
  /\ (exists top,
        top_line E b (given_title _opts) width po = Normal top
        /\ head (split_nl out) = Some top)
  /\ last (split_nl out)
     = Some (bl b ++ copies (width + po) (h b) ++ br b).
Proof.
  intros st n po width Hbox Hb Hpad Hborder Htitle.
  split; [apply split_nl_length|].
  unfold box in Hbox. apply bind_Normal in Hbox as (rows & Hrows & Hout).
  injection Hout as <-.
  apply box_lines_inv in Hrows
    as (b' & top & middle & bottom & Hb' & Htop & Hmiddle & Hbottom & ->).
  fold st in Hb'. rewrite Hb in Hb'. injection Hb' as <-.
  fold st po in Htop, Hmiddle, Hbottom. fold width in Htop, Hmiddle, Hbottom.
  pose proof (paddingOffset_nonneg _ Hpad) as Hpo. fold po in Hpo.
  assert (Hsingle : Forall (fun row => NL ∉ row) (top :: middle ++ [bottom])).
  { constructor; [eapply top_line_single_line; eassumption|].
    apply Forall_app. split.
    - eapply sequence_Forall; [|exact Hmiddle].
      intros i r Hr. eapply middle_line_single_line; try eassumption.
      apply split_nl_single_lines.
    - apply rule_line_inv in Hbottom as (_ & ->).
      destruct Hborder as (_ & _ & Hbl & Hbr & Hh & _).
      repeat constructor. rewrite !elem_of_app.
      pose proof (copies_single_line (width + po) _ Hh). tauto. }
  rewrite split_join by (assumption || discriminate).
  apply sequence_length in Hmiddle.
  rewrite length_map, length_seqZ in Hmiddle.
  split; [|split].
  - simpl. rewrite length_app. simpl. fold n in Hmiddle. lia.
  - exists top. split; [exact Htop | reflexivity].
  - apply rule_line_inv in Hbottom as (_ & ->).
    change (top :: middle ++ [bl b ++ copies (width + po) (h b) ++ br b])
      with ((top :: middle) ++ [bl b ++ copies (width + po) (h b) ++ br b]).
    apply last_snoc.
Qed.





(** C8: in every box with a title, the top border is the top-left
    corner, [floor((width - visibleWidth(title)) / 2)] horizontal glyphs,
    the title, the horizontal glyphs that remain, and the top-right
    corner; fills and title together are as long as the rule of a box
    without a title, [widthOffset]. Such a top border is produced
    whenever the title fits. The horizontal glyph is one column wide. *)
Theorem box_title_centered (E : Env) (text : jsstring) (_opts : BoxOpts)
    (t : jsstring) (b : BoxBorderStyle) :
  let st := resolved_style _opts in
  let po := paddingOffset (padding st) in
  let width := box_width (split_nl text) po in
  let vt := len (stripAnsi E t) in
  let L := (width - vt) / 2 in
  let R := width + po - vt - L in
  let top := tl b ++ copies L (h b) ++ t ++ copies R (h b) ++ tr b in
  given_title _opts = Some t ->
  border_glyphs E st = Some b ->
  len (stripAnsi E (copies L (h b))) = L ->
  (forall rows,
     box_lines E text _opts = Normal rows ->
     0 <= L /\ 0 <= R /\ L + vt + R = width + po /\ head rows = Some top)
  /\ (0 <= padding st -> vt <= width ->
      top_line E b (given_title _opts) width po = Normal top).
Proof.
  intros st po width vt L R top Ht Hb Hrule. split.
  - intros rows Hrows.
    apply box_lines_inv in Hrows
      as (b' & top' & middle & bottom & Hb' & Htop' & _ & _ & ->).
    fold st in Hb'. rewrite Hb in Hb'. injection Hb' as <-.
    fold st po in Htop'. fold width in Htop'. rewrite Ht in Htop'.
    apply top_line_inv in Htop' as (HL & HR & ->).
    fold vt L in HL, HR |- *. rewrite Hrule in HR |- *.
    replace (width - vt - L + po) with R in HR |- * by (unfold R; lia).
    repeat split; try assumption. unfold R. lia.
  - intros Hpad Hfit.
    pose proof (paddingOffset_nonneg _ Hpad) as Hpo. fold po in Hpo.
    assert (HL : 0 <= L) by (apply Z.div_pos; lia).
    assert (HL' : L <= width - vt) by (apply Z.div_le_upper_bound; lia).
    rewrite Ht. unfold top_line. fold vt L.
    rewrite js_repeat_nonneg by exact HL. simpl.
    rewrite Hrule. replace (width - vt - L + po) with R by (unfold R; lia).
    rewrite js_repeat_nonneg by (unfold R; lia). reflexivity.
Qed.

Lemma box_title_centered_witness :
  let E := ansiEnv in
  let opts := {| title := Some (lit "T"); style := None |} in
  exists b rows,
    border_glyphs E (resolved_style opts) = Some b
    /\ box_lines E (lit "hi") opts = Normal rows
    /\ box_width (split_nl (lit "hi")) 2 = 4
    /\ (4 - len (stripAnsi E (lit "T"))) / 2 = 1
    /\ head rows
       = Some (tl b ++ copies 1 (h b) ++ lit "T" ++ copies 4 (h b) ++ tr b)
    /\ top_line E b (given_title opts) 4 2
       = Normal (tl b ++ copies 1 (h b) ++ lit "T" ++ copies 4 (h b) ++ tr b).
Proof.
  intros E opts.
  exists (default (glyphs 0 0 0 0 0 0) (border_glyphs E (resolved_style opts))).
  exists (returned [] (box_lines E (lit "hi") opts)).
  split; [vm_compute; reflexivity|].
  split; [vm_compute; reflexivity|].
  split; [reflexivity|]. split; [reflexivity|].
  destruct (box_title_centered E (lit "hi") opts (lit "T")
              (default (glyphs 0 0 0 0 0 0)
                 (border_glyphs E (resolved_style opts))))
    as (Hrows & Htop).
  - reflexivity.
  - vm_compute. reflexivity.
  - vm_compute. reflexivity.
  - split.
    + apply (Hrows (returned [] (box_lines E (lit "hi") opts))).
      vm_compute. reflexivity.
    + apply Htop; vm_compute; discriminate.
Defined.

Lemma box_line_count_witness :
  let E := ansiEnv in
  let text := lit "line1" ++ [NL] ++ lit "line22" in
  let opts := {| title := Some (lit "T"); style := None |} in
  exists out,
    box E text opts = Normal out
    /\ Z.of_nat (length (split_nl out)) = 2 + 2 + 2.
Proof.
  intros E text opts. exists (returned [] (box E text opts)).
  split; [vm_compute; reflexivity|].
  eapply (box_line_count E text opts _
            (default (glyphs 0 0 0 0 0 0)
               (border_glyphs E (resolved_style opts)))).
  - vm_compute. reflexivity.
  - vm_compute. reflexivity.
  - vm_compute. discriminate.
  - repeat split; apply absent_check; vm_compute; reflexivity.
  - intros t [= <-]. apply absent_check. vm_compute. reflexivity.
Defined.

(** C10 fails for a title with a line break: the box of ["hi"] with the
    title ["a\nb"] splits into six lines, not into [1 + 2 + 2]. *)
Lemma box_line_count_counterexample :
  let text := lit "hi" in
  let opts := {| title := Some (lit "a" ++ [NL] ++ lit "b"); style := None |} in
  exists out,
    box plainEnv text opts = Normal out
    /\ Z.of_nat (length (split_nl out))
       <> Z.of_nat (length (split_nl text))
          + paddingOffset (padding (resolved_style opts)) + 2.
Proof.
  intros text opts. exists (returned [] (box plainEnv text opts)).
  split; [vm_compute; reflexivity|].
  vm_compute. discriminate.
Qed.

(** C1, at a colored line: the box of the red text ["hi"] has rows of
    visible width 18, because the width is computed from the 12 code
    units of the line with its escape sequences; the width that the
    visible text gives is [2 + 2], and [widthOffset + 2] is 8. *)
Theorem box_width_counts_escape_sequences :
  let E := ansiEnv in
  let text := paint "31" "39" (lit "hi") in
  let visibleWidth := fun line => len (stripAnsi E line) in
  let po := paddingOffset (padding defaultStyle) in
  exists rows,
    box_lines E text {| title := None; style := None |} = Normal rows
    /\ map visibleWidth rows = [18; 18; 18; 18; 18]
    /\ box_width (split_nl text) po = 14
    /\ max_length (map visibleWidth (split_nl text)) + po = 4
    /\ (max_length (map visibleWidth (split_nl text)) + po) + po + 2 = 8.
Proof.
  intros E text visibleWidth po.
  exists (returned [] (box_lines E text {| title := None; style := None |})).
  repeat split; vm_compute; reflexivity.
Qed.

(** ** The cause chain *)

Section CauseChain.
Context (E : Env).
Context (this_formatStack : jsstring -> FormatOptions -> completion jsstring).

Lemma obind_Some {A B : Type} (c : outcome A) (k : A -> outcome B)
    (b : B) :
  obind c k = Some (Normal b) ->
  exists a, c = Some (Normal a) /\ k a = Some (Normal b).
Proof. destruct c as [[a|e]|]; simpl; [eauto | discriminate ..]. Qed.

(** A chain of [n] causes is formatted by [n + 1] nested calls. *)
Lemma formatError_returns (st : store) (err : value) (n : nat) :
  cause_depth st err n ->
  forall opts fuel, (n < fuel)%nat ->
    exists out,
      formatError E this_formatStack fuel st err opts = Some out
      /\ formatError E this_formatStack (S n) st err opts = Some out.
Proof.
  induction 1 as [err Hend | err c n Hc Hdepth IH]; intros opts fuel Hfuel;
    (destruct fuel as [|fuel]; [lia|]); simpl.
  - rewrite Hend.
    destruct (stack_text this_formatStack st err opts); simpl; [|eauto].
    destruct (causedPrefix opts); simpl; eauto.
  - rewrite Hc.
    destruct (stack_text this_formatStack st err opts); simpl; [|eauto].
    destruct (causedPrefix opts); simpl; [|eauto].
    destruct (IH (with_errorLevel opts (level_of opts + 1)) fuel)
      as (inner & Hfuel' & Hn); [lia|].
    rewrite Hfuel'. simpl in Hn. rewrite Hn.
    destruct inner; simpl; eauto.
Qed.

(** A call that returns a string has followed a chain that ends. *)
Lemma formatError_Normal_finite (fuel : nat) :
  forall st err opts out,
    formatError E this_formatStack fuel st err opts = Some (Normal out) ->
    exists n, (n < fuel)%nat /\ cause_depth st err n.
Proof.
  induction fuel as [|fuel IH]; intros st err opts out H; [discriminate|].
  simpl in H.
  destruct (stack_text this_formatStack st err opts); [|discriminate].
  destruct (causedPrefix opts); [|discriminate].
  apply obind_Some in H as (causedError & Hcause & _).
  destruct (truthy_cause st err) as [c|] eqn:Hc.
  - apply obind_Some in Hcause as (inner & Hinner & _).
    apply IH in Hinner as (n & Hn & Hdepth).
    exists (S n). split; [lia|]. eapply depth_step; eassumption.
  - exists 0%nat. split; [lia|]. apply depth_end, Hc.
Qed.

(** On an error that is its own cause the calls nest without end, as
    long as formatting the stack does not raise. *)
Lemma formatError_self_cause (st : store) (a : nat)
    (I : FormatOptions -> Prop) :
  o_cause (st a) = Some (VObject a) ->
  (forall opts, I opts -> I (with_errorLevel opts (level_of opts + 1))) ->
  (forall opts, I opts ->
     exists stack prefix,
       stack_text this_formatStack st (VObject a) opts = Normal stack
       /\ causedPrefix opts = Normal prefix) ->
  forall fuel opts, I opts -> formatError E this_formatStack fuel st (VObject a) opts = None.
Proof.
  intros Hcause Hnext Hstack.
  induction fuel as [|fuel IH]; intros opts Hopts; [reflexivity|].
  simpl. destruct (Hstack opts Hopts) as (stack & prefix & -> & ->). simpl.
  unfold truthy_cause. simpl. rewrite Hcause. simpl.
  rewrite IH by auto. reflexivity.
Qed.

End CauseChain.

Lemma causedPrefix_returns (opts : FormatOptions) :
  exists prefix, causedPrefix opts = Normal prefix.
Proof.
  unfold causedPrefix. destruct (Z.ltb_spec 0 (level_of opts)); [|eauto].
  rewrite js_repeat_nonneg by lia. simpl. eauto.
Qed.

(** C2, as amended: [formatError] returns exactly when the cause chain of
    the error ends. A chain of [n] causes is formatted by [n + 1] nested
    calls, whatever the fuel beyond that, and a call that returns a
    string has followed a chain that is shorter than its fuel; nothing
    bounds the depth and nothing marks an output as truncated. *)
Theorem formatError_terminates_on_finite_chains (E : Env)
    (this_formatStack : jsstring -> FormatOptions -> completion jsstring)
    (st : store) (err : value) (opts : FormatOptions) :
  (forall n, cause_depth st err n ->
     forall fuel, (n < fuel)%nat ->
       exists out,
         formatError E this_formatStack fuel st err opts = Some out
         /\ formatError E this_formatStack (S n) st err opts = Some out)
  /\ (forall fuel out,
        formatError E this_formatStack fuel st err opts = Some (Normal out) ->
        exists n, (n < fuel)%nat /\ cause_depth st err n).
Proof.
  split.
  - intros n Hdepth fuel Hfuel. eapply formatError_returns; eassumption.
  - intros fuel out H. eapply formatError_Normal_finite, H.
Qed.

Lemma formatError_terminates_on_finite_chains_witness :
  let opts := sampleOptions 0 None in
  cause_depth oneCause (VObject 0) 1
  /\ exists out,
       BasicReporter.formatError plainEnv 5 oneCause (VObject 0) opts
       = Some out
       /\ BasicReporter.formatError plainEnv 2 oneCause (VObject 0) opts
          = Some out.
Proof.
  intros opts.
  assert (Hdepth : cause_depth oneCause (VObject 0) 1).
  { eapply depth_step; [reflexivity|]. apply depth_end. reflexivity. }
  split; [exact Hdepth|].
  apply (proj1 (formatError_terminates_on_finite_chains plainEnv
                  (BasicReporter.formatStack plainEnv) oneCause (VObject 0)
                  opts) 1%nat Hdepth 5%nat).
  lia.
Defined.

(** C2 fails on an error that is its own cause: no number of nested
    calls is enough for [formatError] to return. *)
Lemma formatError_self_cause_counterexample :
  ~ exists fuel out,
      BasicReporter.formatError plainEnv fuel selfCause (VObject 0)
        (sampleOptions 0 None) = Some out.
Proof.
  intros (fuel & out & H).
  unfold BasicReporter.formatError in H.
  rewrite (formatError_self_cause plainEnv (BasicReporter.formatStack plainEnv)
             selfCause 0 (fun opts => 0 <= level_of opts)) in H.
  - discriminate.
  - reflexivity.
  - intros opts Hopts. cbv beta in *.
    change (level_of (with_errorLevel opts (level_of opts + 1)))
      with (level_of opts + 1). lia.
  - intros opts Hopts. cbv beta in Hopts.
    destruct (causedPrefix_returns opts) as (prefix & ->).
    unfold stack_text. simpl. unfold BasicReporter.formatStack.
    rewrite js_repeat_nonneg by lia. simpl. eauto.
  - vm_compute. discriminate.
Qed.

(** ** Stack frames *)

Lemma copies_two_spaces (k : Z) : copies k (lit "  ") = copies (2 * k) [SP].
Proof.
  unfold copies.
  replace (Z.to_nat (2 * k)) with (2 * Z.to_nat k)%nat by lia.
  induction (Z.to_nat k) as [|n IH]; [reflexivity|].
  replace (2 * S n)%nat with (S (S (2 * n))) by lia.
  simpl. simpl in IH. rewrite IH. reflexivity.
Qed.

Lemma split_indented (indent : jsstring) (frames : list jsstring) :
  NL ∉ indent -> Forall (fun frame => NL ∉ frame) frames -> frames <> [] ->
  split_nl (indent ++ join ([NL] ++ indent) frames)
  = map (fun frame => indent ++ frame) frames.
Proof.
  intros Hindent. induction frames as [|frame frames IH]; [congruence|].
  intros Hframes _. inversion Hframes as [|? ? Hframe Hrest]; subst.
  assert (Hline : NL ∉ indent ++ frame) by (rewrite elem_of_app; tauto).
  destruct frames as [|frame' frames].
  - simpl. apply split_nl_line, Hline.
  - set (others := join ([NL] ++ indent) (frame' :: frames)) in *.
    change (join ([NL] ++ indent) (frame :: frame' :: frames))
      with (frame ++ (NL :: indent) ++ others).
    replace (indent ++ frame ++ (NL :: indent) ++ others)
      with ((indent ++ frame) ++ NL :: (indent ++ others))
      by (rewrite <- app_assoc; reflexivity).
    rewrite split_nl_app by exact Hline.
    rewrite IH by (assumption || discriminate). reflexivity.
Qed.

(** The Basic reporter indents every frame by [2 * (errorLevel + 1)]
    spaces. *)
Lemma basic_formatStack_indent (E : Env) (stack : jsstring)
    (opts : FormatOptions) :
  0 <= level_of opts + 1 ->
  parseStack E stack <> [] ->
  Forall (fun frame => NL ∉ frame) (parseStack E stack) ->
  exists out,
    BasicReporter.formatStack E stack opts = Normal out
    /\ split_nl out
       = map (fun frame => copies (2 * (level_of opts + 1)) [SP] ++ frame)
           (parseStack E stack).
Proof.
  intros Hlevel Hne Hframes. unfold BasicReporter.formatStack.
  rewrite js_repeat_nonneg by exact Hlevel. simpl.
  eexists. split; [reflexivity|].
  rewrite copies_two_spaces.
  apply (split_indented (copies (2 * (level_of opts + 1)) [SP]));
    [apply spaces_single_line | assumption | assumption].
Qed.

(** C4, at a cause: with [errorLevel = 1] a frame is to be indented by
    [2 * (1 + 1) = 4] spaces. The Basic reporter does so; the Fancy
    reporter indents it by two spaces, as it does for every other
    [errorLevel], because its override of [formatStack] does not read the
    options. *)
Theorem fancy_formatStack_ignores_errorLevel :
  let opts := sampleOptions 0 (Some 1) in
  2 * (level_of opts + 1) = 4
  /\ BasicReporter.formatStack ansiEnv sampleStack opts
     = Normal (copies 4 [SP] ++ lit "at foo (file.js:1:2)")
  /\ FancyReporter.formatStack ansiEnv sampleStack opts
     = Normal ([NL] ++ copies 2 [SP] ++ gray ansiEnv (lit "at ")
               ++ lit "foo (" ++ cyan ansiEnv (lit "file.js:1:2") ++ lit ")")
  /\ forall E stack opts',
       FancyReporter.formatStack E stack opts'
       = FancyReporter.formatStack E stack opts.
Proof.
  intros opts. repeat split; vm_compute; reflexivity.
Qed.

(** ** Stream routing *)

Lemma writeStream_target (data : jsstring) (s : stream) (w : world) :
  writeStream data s w (sid s) = w (sid s) ++ [data].
Proof. unfold writeStream. rewrite decide_True by reflexivity. reflexivity. Qed.

Lemma writeStream_other (data : jsstring) (s : stream) (w : world)
    (i : stream_id) :
  i <> sid s -> writeStream data s w i = w i.
Proof. intros H. unfold writeStream. rewrite decide_False by exact H. reflexivity. Qed.

(** C5: once the line of a record is formatted, [log] of the Basic
    reporter writes it, followed by one line break, as one chunk: to the
    error stream when the level is below 2, to the standard output stream
    otherwise; no other stream is written to. *)
Theorem basic_log_routing (E : Env) (fuel : nat) (st : store)
    (logObj : LogObject) (options : ConsolaOptions) (w : world)
    (line : jsstring) :
  BasicReporter.formatLine E fuel st logObj options = Some (Normal line) ->
  exists w',
    BasicReporter.log E fuel st logObj options w = Some (Normal w')
    /\ (log_level logObj < 2 ->
        let err := sid (default process_stderr (stderr options)) in
        w' err = w err ++ [line ++ [NL]]
        /\ forall i, i <> err -> w' i = w i)
    /\ (2 <= log_level logObj ->
        let out := sid (default process_stdout (stdout options)) in
        w' out = w out ++ [line ++ [NL]]
        /\ forall i, i <> out -> w' i = w i).
Proof.
  intros Hline. unfold BasicReporter.log, log.
  unfold BasicReporter.formatLine in Hline. rewrite Hline. simpl.
  eexists. split; [reflexivity|]. unfold target.
  split; intros Hlevel; simpl.
  - destruct (Z.ltb_spec (log_level logObj) 2); [|lia].
    split; [apply writeStream_target|].
    intros i Hi. apply writeStream_other, Hi.
  - destruct (Z.ltb_spec (log_level logObj) 2); [lia|].
    split; [apply writeStream_target|].
    intros i Hi. apply writeStream_other, Hi.
Qed.

Lemma basic_log_routing_witness :
  let w : world := fun _ => [] in
  let line := lit "[error] [app] hello `world`" in
  exists w',
    BasicReporter.log plainEnv 1 noObjects (sampleRecord "error" 0)
      (sampleConsola 120) w = Some (Normal w')
    /\ w' ProcessStderr = [line ++ [NL]]
    /\ w' (UserStream 1) = [].
Proof.
  intros w line.
  destruct (basic_log_routing plainEnv 1 noObjects (sampleRecord "error" 0)
              (sampleConsola 120) w line)
    as (w' & Hlog & Herr & _); [vm_compute; reflexivity|].
  exists w'. split; [exact Hlog|].
  destruct Herr as [Hwritten Hothers]; [vm_compute; reflexivity|].
  split; [exact Hwritten|].
  apply (Hothers (UserStream 1)). discriminate.
Defined.

(** ** Colors of the Fancy reporter *)

Lemma TYPE_COLOR_MAP_truthy (k c : jsstring) :
  TYPE_COLOR_MAP !! k = Some c -> truthy c = true.
Proof.
  intros H. apply elem_of_list_to_map_2 in H.
  repeat (apply elem_of_cons in H as [[= -> ->]|H]; [reflexivity|]).
  apply elem_of_nil in H. contradiction.
Qed.

Lemma LEVEL_COLOR_MAP_truthy (k : Z) (c : jsstring) :
  LEVEL_COLOR_MAP !! k = Some c -> truthy c = true.
Proof.
  intros H. apply elem_of_list_to_map_2 in H.
  repeat (apply elem_of_cons in H as [[= -> ->]|H]; [reflexivity|]).
  apply elem_of_nil in H. contradiction.
Qed.

Lemma chain_color_truthy (logObj : LogObject) :
  truthy (chain_color logObj) = true.
Proof.
  unfold chain_color.
  destruct (TYPE_COLOR_MAP !! log_type logObj) as [c|] eqn:Htype;
    [eapply TYPE_COLOR_MAP_truthy, Htype|].
  destruct (LEVEL_COLOR_MAP !! log_level logObj) as [c|] eqn:Hlevel;
    [eapply LEVEL_COLOR_MAP_truthy, Hlevel | reflexivity].
Qed.

(** For a type that names no inherited member the type color is the
    color of the fallback chain. *)
Lemma typeColor_chain (logObj : LogObject) :
  log_type logObj ∉ object_prototype_keys ->
  FancyReporter.typeColor logObj = Text (chain_color logObj).
Proof.
  intros Hkey. unfold FancyReporter.typeColor, get_member, chain_color, or_else.
  destruct (TYPE_COLOR_MAP !! log_type logObj) as [c|] eqn:Htype.
  - rewrite (TYPE_COLOR_MAP_truthy _ _ Htype). reflexivity.
  - rewrite bool_decide_eq_false_2 by exact Hkey.
    destruct (LEVEL_COLOR_MAP !! log_level logObj) as [c|] eqn:Hlevel;
      [|reflexivity].
    rewrite (LEVEL_COLOR_MAP_truthy _ _ Hlevel). reflexivity.
Qed.

(** No inherited member is shadowed by an entry of the type table. *)
Lemma typeColor_inherited (logObj : LogObject) :
  log_type logObj ∈ object_prototype_keys ->
  FancyReporter.typeColor logObj = Inherited (log_type logObj).
Proof.
  intros Hkey. unfold FancyReporter.typeColor, get_member.
  rewrite (bool_decide_eq_true_2 _ Hkey).
  replace (TYPE_COLOR_MAP !! log_type logObj) with (@None jsstring);
    [reflexivity|].
  unfold object_prototype_keys in Hkey.
  repeat (apply elem_of_cons in Hkey as [->|Hkey]; [reflexivity|]).
  apply elem_of_nil in Hkey. contradiction.
Qed.

(** What [formatType] returns for a type color that is a color name. *)
Lemma formatType_badge (E : Env) (logObj : LogObject) (opts : FormatOptions)
    (c : N) (rest : jsstring) :
  FancyReporter.typeColor logObj = Text (c :: rest) ->
  FancyReporter.formatType E logObj true opts
  = Normal
      (default (bgWhite E)
         (colorette E (lit "bg" ++ toUpperCase E [c] ++ rest))
         (black E (lit " " ++ toUpperCase E (log_type logObj) ++ lit " "))).
Proof.
  intros Hcolor. unfold FancyReporter.formatType. rewrite Hcolor. reflexivity.
Qed.





(** ** The line of the Fancy reporter *)

Lemma filterAndJoin_one (x : jsstring) : filterAndJoin [x] = x.
Proof.
  unfold filterAndJoin. destruct x as [|c x]; [reflexivity|].
  rewrite filter_cons_True by reflexivity. reflexivity.
Qed.

Lemma filterAndJoin_two (x y : jsstring) :
  truthy x = true -> truthy y = true -> filterAndJoin [x; y] = x ++ [SP] ++ y.
Proof.
  intros Hx Hy. unfold filterAndJoin.
  rewrite filter_cons_True by exact Hx.
  rewrite filter_cons_True by exact Hy. reflexivity.
Qed.

(** C3, as amended: the right-hand segment is the tag joined with the
    formatted date whenever the column count is known (not zero), also
    when it is below 80, and the tag alone when the column count is
    unknown. Below 80 columns the segment is put in brackets in front of
    the left-hand segment; at 80 columns and more it follows the
    left-hand segment on the same line when at least one space is left
    between them. *)
Theorem fancy_right_segment (E : Env) (logObj : LogObject)
    (opts : FormatOptions) :
  let tag := FancyReporter.tag E logObj in
  let coloredDate := FancyReporter.coloredDate E logObj opts in
  let r := FancyReporter.right E logObj opts in
  (columns opts = 0 -> r = tag)
  /\ (columns opts <> 0 ->
      r = filterAndJoin [tag; coloredDate]
      /\ (truthy tag = true -> truthy coloredDate = true ->
          r = tag ++ [SP] ++ coloredDate))
  /\ (columns opts < 80 ->
      forall l,
        FancyReporter.compose_line E l r opts
        = Normal ((if truthy r
                   then gray E (lit "[" ++ r ++ lit "]") ++ [SP]
                   else []) ++ l))
  /\ (80 <= columns opts ->
      forall l,
        0 < columns opts - stringWidth E l - stringWidth E r - 2 ->
        FancyReporter.compose_line E l r opts
        = Normal (l ++ copies (columns opts - stringWidth E l
                               - stringWidth E r - 2) [SP] ++ r)).
Proof.
  intros tag coloredDate r. repeat split.
  - intros Hcols. unfold r, FancyReporter.right. rewrite Hcols. simpl.
    apply filterAndJoin_one.
  - unfold r, FancyReporter.right.
    destruct (Z.eqb_spec (columns opts) 0); [contradiction | reflexivity].
  - intros Htag Hdate. unfold r, FancyReporter.right.
    destruct (Z.eqb_spec (columns opts) 0); [contradiction|]. simpl.
    apply filterAndJoin_two; assumption.
  - intros Hcols l. clearbody r. unfold FancyReporter.compose_line.
    destruct (Z.leb_spec 80 (columns opts)); [lia|].
    rewrite andb_false_r. reflexivity.
  - intros Hcols l Hspace. clearbody r. unfold FancyReporter.compose_line.
    destruct (Z.leb_spec 80 (columns opts)); [|lia].
    destruct (Z.ltb_spec 0
      (columns opts - stringWidth E l - stringWidth E r - 2)); [|lia].
    simpl. rewrite js_repeat_nonneg by lia. reflexivity.
Qed.

Lemma fancy_right_segment_witness :
  let E := ansiEnv in
  let logObj := sampleRecord "info" 3 in
  FancyReporter.right E logObj (sampleOptions 0 None)
  = FancyReporter.tag E logObj
  /\ FancyReporter.right E logObj (sampleOptions 40 None)
     = gray E (lit "app") ++ [SP] ++ gray E (lit "10:00:00")
  /\ FancyReporter.compose_line E (lit "left")
       (FancyReporter.right E logObj (sampleOptions 40 None))
       (sampleOptions 40 None)
     = Normal (gray E (lit "[" ++ gray E (lit "app") ++ [SP]
                       ++ gray E (lit "10:00:00") ++ lit "]")
               ++ [SP] ++ lit "left")
  /\ FancyReporter.compose_line E (lit "left")
       (FancyReporter.right E logObj (sampleOptions 80 None))
       (sampleOptions 80 None)
     = Normal (lit "left" ++ copies 62 [SP] ++ gray E (lit "app") ++ [SP]
               ++ gray E (lit "10:00:00")).
Proof.
  intros E logObj.
  destruct (fancy_right_segment E logObj (sampleOptions 0 None))
    as (Hzero & _).
  destruct (fancy_right_segment E logObj (sampleOptions 40 None))
    as (_ & Hknown & Hnarrow & _).
  destruct (fancy_right_segment E logObj (sampleOptions 80 None))
    as (_ & _ & _ & Hwide).
  split; [apply Hzero; reflexivity|].
  split.
  { apply Hknown; [discriminate | vm_compute; reflexivity ..]. }
  split.
  { rewrite Hnarrow by (vm_compute; reflexivity). vm_compute. reflexivity. }
  rewrite Hwide by (vm_compute; (discriminate || reflexivity)).
  vm_compute. reflexivity.
Defined.

(** C3 fails at 40 columns: with the date switched on, the right-hand
    segment of a record with the tag ["app"] is the tag and the time, not
    the tag only, and both are printed in front of the message. *)
Lemma fancy_right_segment_counterexample :
  let logObj := sampleRecord "info" 3 in
  let opts := sampleOptions 40 None in
  columns opts < 80
  /\ FancyReporter.tag plainEnv logObj = lit "app"
  /\ FancyReporter.right plainEnv logObj opts = lit "app 10:00:00"
  /\ FancyReporter.right plainEnv logObj opts
     <> FancyReporter.tag plainEnv logObj
  /\ FancyReporter.formatLogObj plainEnv 1 noObjects logObj opts
     = Some (Normal (lit "[app 10:00:00] " ++ [0x2139%N]
                     ++ lit " hello world")).
Proof.
  intros logObj opts. repeat split; try (vm_compute; reflexivity).
  vm_compute. discriminate.
Qed.

(** ** Backtick highlighting *)

Lemma until_backtick_plain (str : jsstring) :
  BACKTICK ∉ str -> until_backtick str = (str, []).
Proof.
  induction str as [|c rest IH]; intros H; simpl; [reflexivity|].
  apply not_elem_of_cons in H as [Hc Hrest].
  destruct (N.eqb_spec c BACKTICK) as [->|_]; [congruence|].
  rewrite (IH Hrest). reflexivity.
Qed.

Lemma until_backtick_span (m rest : jsstring) :
  BACKTICK ∉ m ->
  until_backtick (m ++ BACKTICK :: rest) = (m, BACKTICK :: rest).
Proof.
  induction m as [|c m IH]; intros H; simpl; [reflexivity|].
  apply not_elem_of_cons in H as [Hc Hm].
  destruct (N.eqb_spec c BACKTICK) as [->|_]; [congruence|].
  rewrite (IH Hm). reflexivity.
Qed.

Lemma until_backtick_length (str m after : jsstring) :
  until_backtick str = (m, after) -> (length after <= length str)%nat.
Proof.
  revert m after. induction str as [|c rest IH]; simpl; intros m after H.
  - injection H as <- <-. reflexivity.
  - destruct (c =? BACKTICK)%N.
    + injection H as <- <-. reflexivity.
    + destruct (until_backtick rest) as [m' after'] eqn:Hrest.
      injection H as <- <-. specialize (IH _ _ eq_refl). lia.
Qed.

Section Highlight.
Context (E : Env).

(** Fuel beyond the length of the string changes nothing. *)
Lemma highlight_fuel (fuel1 : nat) :
  forall fuel2 str,
    (length str <= fuel1)%nat -> (length str <= fuel2)%nat ->
    FancyReporter.highlight E fuel1 str = FancyReporter.highlight E fuel2 str.
Proof.
  induction fuel1 as [|fuel1 IH]; intros fuel2 str H1 H2.
  - destruct str; [|simpl in H1; lia]. destruct fuel2; reflexivity.
  - destruct str as [|c rest]; [destruct fuel2; reflexivity|].
    destruct fuel2 as [|fuel2]; [simpl in H2; lia|].
    simpl in H1, H2. simpl.
    destruct (c =? BACKTICK)%N.
    + destruct (until_backtick rest) as [m after] eqn:Hrest.
      pose proof (until_backtick_length _ _ _ Hrest) as Hlen.
      destruct m as [|m0 m]; [f_equal; apply IH; lia|].
      destruct after as [|a after]; [f_equal; apply IH; lia|].
      simpl in Hlen. f_equal. apply IH; lia.
    + f_equal. apply IH; lia.
Qed.

Lemma highlightBackticks_nil : FancyReporter.highlightBackticks E [] = [].
Proof. reflexivity. Qed.

Lemma highlightBackticks_cons (c : N) (str : jsstring) :
  c <> BACKTICK ->
  FancyReporter.highlightBackticks E (c :: str)
  = c :: FancyReporter.highlightBackticks E str.
Proof.
  intros Hc. unfold FancyReporter.highlightBackticks. simpl.
  destruct (N.eqb_spec c BACKTICK); [contradiction | reflexivity].
Qed.

Lemma highlightBackticks_match (m rest : jsstring) :
  BACKTICK ∉ m -> m <> [] ->
  FancyReporter.highlightBackticks E (BACKTICK :: m ++ BACKTICK :: rest)
  = cyan E m ++ FancyReporter.highlightBackticks E rest.
Proof.
  intros Hm Hne. unfold FancyReporter.highlightBackticks. simpl.
  rewrite (until_backtick_span _ _ Hm).
  destruct m as [|m0 m]; [congruence|].
  f_equal. apply highlight_fuel; [|reflexivity].
  rewrite length_app. simpl. lia.
Qed.

Lemma highlightBackticks_plain (str : jsstring) :
  BACKTICK ∉ str -> FancyReporter.highlightBackticks E str = str.
Proof.
  induction str as [|c rest IH]; intros H; [reflexivity|].
  apply not_elem_of_cons in H as [Hc Hrest].
  rewrite highlightBackticks_cons by congruence. rewrite (IH Hrest).
  reflexivity.
Qed.

Lemma highlightBackticks_span (pre m rest : jsstring) :
  BACKTICK ∉ pre -> BACKTICK ∉ m -> m <> [] ->
  FancyReporter.highlightBackticks E
    (pre ++ [BACKTICK] ++ m ++ [BACKTICK] ++ rest)
  = pre ++ cyan E m ++ FancyReporter.highlightBackticks E rest.
Proof.
  intros Hpre Hm Hne. induction pre as [|c pre IH]; simpl.
  - apply highlightBackticks_match; assumption.
  - apply not_elem_of_cons in Hpre as [Hc Hpre].
    rewrite highlightBackticks_cons by congruence.
    simpl in IH. rewrite (IH Hpre). reflexivity.
Qed.

End Highlight.

(** * Further properties of the box renderer *)

Lemma bind_Throw {A B : Type} (c : completion A) (k : A -> completion B)
    (e : js_error) :
  bind c k = Throw e ->
  c = Throw e \/ exists a, c = Normal a /\ k a = Throw e.
Proof. destruct c as [a|e']; simpl; [eauto | intros [= ->]; auto]. Qed.

Lemma js_repeat_Throw (str : jsstring) (count : Z) (e : js_error) :
  js_repeat str count = Throw e -> e = RangeError /\ count < 0.
Proof.
  unfold js_repeat. destruct (Z.ltb_spec count 0); [|discriminate].
  intros [= <-]. auto.
Qed.

Lemma js_repeat_negative (str : jsstring) (count : Z) :
  count < 0 -> js_repeat str count = Throw RangeError.
Proof.
  intros H. unfold js_repeat.
  destruct (Z.ltb_spec count 0); [reflexivity | lia].
Qed.

Lemma sequence_Throw {A B : Type} (f : A -> completion B) (xs : list A)
    (e : js_error) :
  sequence (map f xs) = Throw e -> exists x, x ∈ xs /\ f x = Throw e.
Proof.
  induction xs as [|x xs IH]; simpl; [discriminate|]. intros H.
  apply bind_Throw in H as [H|(a & _ & H)].
  - exists x. split; [apply list_elem_of_here | exact H].
  - apply bind_Throw in H as [H|(others & _ & H)]; [|discriminate].
    destruct (IH H) as (y & Hy & Hfy).
    exists y. split; [apply list_elem_of_further, Hy | exact Hfy].
Qed.

Lemma sequence_lookup {A B : Type} (f : A -> completion B) (xs : list A)
    (rs : list B) :
  sequence (map f xs) = Normal rs ->
  forall i x, xs !! i = Some x ->
    exists r, f x = Normal r /\ rs !! i = Some r.
Proof.
  revert rs. induction xs as [|y xs IH]; simpl; intros rs H i x Hx.
  - destruct i; discriminate.
  - apply bind_Normal in H as (a & Ha & H).
    apply bind_Normal in H as (others & Hothers & H).
    injection H as <-. destruct i as [|i]; simpl in Hx.
    + injection Hx as <-. eauto.
    + apply (IH _ Hothers i x Hx).
Qed.

Lemma rule_line_Throw (lc rule rc : jsstring) (n : Z) (e : js_error) :
  rule_line lc rule rc n = Throw e -> e = RangeError.
Proof.
  unfold rule_line. intros H.
  apply bind_Throw in H as [H|(fill & _ & H)]; [|discriminate].
  apply js_repeat_Throw in H. tauto.
Qed.

Lemma top_line_Throw (E : Env) (b : BoxBorderStyle) (t : option jsstring)
    (width po : Z) (e : js_error) :
  top_line E b t width po = Throw e -> e = RangeError.
Proof.
  destruct t as [t|]; simpl; [|apply rule_line_Throw]. intros H.
  apply bind_Throw in H as [H|(left & _ & H)];
    [apply js_repeat_Throw in H; tauto|].
  apply bind_Throw in H as [H|(right & _ & H)]; [|discriminate].
  apply js_repeat_Throw in H. tauto.
Qed.

(** A row of the loop is in range of the text whenever the loop takes
    the branch of the text lines, so that a row raises a RangeError or
    nothing. *)
Lemma middle_line_Throw (E : Env) (b : BoxBorderStyle)
    (textLines : list jsstring) (width po off i : Z) (e : js_error) :
  middle_line E b textLines width po off i = Throw e -> e = RangeError.
Proof.
  unfold middle_line.
  destruct (Z.ltb_spec i off) as [Hlt|Hlow]; simpl.
  { intros H. apply bind_Throw in H as [H|(blank & _ & H)]; [|discriminate].
    apply js_repeat_Throw in H. tauto. }
  destruct (Z.leb_spec (off + Z.of_nat (length textLines)) i)
    as [Hle|Hhigh]; simpl.
  { intros H. apply bind_Throw in H as [H|(blank & _ & H)]; [|discriminate].
    apply js_repeat_Throw in H. tauto. }
  destruct (lookup_lt_is_Some_2 textLines (Z.to_nat (i - off)))
    as (line & ->); [lia|].
  intros H. apply bind_Throw in H as [H|(left & _ & H)];
    [apply js_repeat_Throw in H; tauto|].
  apply bind_Throw in H as [H|(right & _ & H)]; [|discriminate].
  apply js_repeat_Throw in H. tauto.
Qed.

(** X1: [box] raises a TypeError exactly when the border style names a
    preset that is not in the table (the spread of the missing entry
    leaves the glyphs undefined); every other exception of [box] is the
    RangeError of a [repeat] with a negative count. *)
Theorem box_TypeError_iff_unknown_preset (E : Env) (text : jsstring)
    (_opts : BoxOpts) :
  (box E text _opts = Throw TypeError
   <-> border_glyphs E (resolved_style _opts) = None)
  /\ (border_glyphs E (resolved_style _opts) = None
      <-> exists name,
            borderStyle (resolved_style _opts) = Preset name
            /\ boxStylePresets !! name = None)
  /\ forall e, box E text _opts = Throw e -> e = TypeError \/ e = RangeError.
Proof.
  assert (Hthrow : forall e b,
    border_glyphs E (resolved_style _opts) = Some b ->
    box E text _opts = Throw e -> e = RangeError).
  { intros e b Hb H. unfold box, box_lines in H. rewrite Hb in H.
    apply bind_Throw in H as [H|(rows & _ & H)]; [|discriminate].
    apply bind_Throw in H as [H|(top & _ & H)];
      [eapply top_line_Throw, H|].
    apply bind_Throw in H as [H|(middle & _ & H)].
    - apply sequence_Throw in H as (i & _ & H).
      eapply middle_line_Throw, H.
    - apply bind_Throw in H as [H|(bottom & _ & H)]; [|discriminate].
      eapply rule_line_Throw, H. }
  split; [|split].
  - split.
    + intros H.
      destruct (border_glyphs E (resolved_style _opts)) as [b|] eqn:Hb;
        [|reflexivity].
      pose proof (Hthrow _ b eq_refl H). discriminate.
    + intros H. unfold box, box_lines. rewrite H. reflexivity.
  - unfold border_glyphs, resolve_border.
    destruct (borderStyle (resolved_style _opts)) as [name|g].
    + destruct (boxStylePresets !! name) eqn:Hname.
      * split; [discriminate|]. intros (name' & [= <-] & H). congruence.
      * split; [eauto | reflexivity].
    + split; [discriminate|]. intros (name & H & _). discriminate.
  - intros e H.
    destruct (border_glyphs E (resolved_style _opts)) as [b|] eqn:Hb.
    + right. eapply Hthrow; [reflexivity | exact H].
    + left. unfold box, box_lines in H. rewrite Hb in H. simpl in H.
      congruence.
Qed.

(** X2: a title whose visible width exceeds the width of the box (the
    longest line plus the padding) makes the left fill negative, and
    [box] raises a RangeError instead of returning a box. *)
Theorem box_title_too_wide (E : Env) (text : jsstring) (_opts : BoxOpts)
    (t : jsstring) (b : BoxBorderStyle) :
  let st := resolved_style _opts in
  let width := box_width (split_nl text) (paddingOffset (padding st)) in
  given_title _opts = Some t ->
  border_glyphs E st = Some b ->
  width < len (stripAnsi E t) ->
  box E text _opts = Throw RangeError.
Proof.
  intros st width Ht Hb Hwide. unfold box, box_lines.
  fold st. rewrite Hb, Ht. fold width. unfold top_line.
  rewrite js_repeat_negative; [reflexivity|].
  apply Z.div_lt_upper_bound; lia.
Qed.

Lemma box_title_too_wide_witness :
  box ansiEnv (lit "hi")
    {| title := Some (lit "a long title"); style := None |}
  = Throw RangeError.
Proof.
  apply (box_title_too_wide ansiEnv (lit "hi")
           {| title := Some (lit "a long title"); style := None |}
           (lit "a long title")
           (default (glyphs 0 0 0 0 0 0)
              (border_glyphs ansiEnv defaultStyle))).
  - reflexivity.
  - vm_compute. reflexivity.
  - vm_compute. reflexivity.
Defined.


Lemma paddingOffset_is_even (p : Z) : exists m, paddingOffset p = 2 * m.
Proof.
  unfold paddingOffset.
  pose proof (Z.quot_rem' p 2) as Hp.
  pose proof (Z.rem_bound_abs p 2 ltac:(lia)) as Hbound.
  destruct (Z.eqb_spec (Z.rem p 2) 0) as [H0|H0].
  - exists (p ÷ 2). lia.
  - destruct (Z.lt_total (Z.rem p 2) 0) as [Hneg|[Hz|Hpos]]; [|lia|].
    + exists (p ÷ 2). lia.
    + exists (p ÷ 2 + 1). lia.
Qed.

(** X4: the padding that [box] works with is even, it is the given
    padding or the next integer, and normalizing it again changes
    nothing; this holds for negative paddings too. *)
Theorem paddingOffset_even_next (p : Z) :
  Z.even (paddingOffset p) = true
  /\ p <= paddingOffset p <= p + 1
  /\ paddingOffset (paddingOffset p) = paddingOffset p.
Proof.
  destruct (paddingOffset_is_even p) as (m & Hm).
  split; [apply Z.even_spec; exists m; exact Hm|]. split.
  - unfold paddingOffset. destruct (Z.rem p 2 =? 0); lia.
  - rewrite Hm. apply paddingOffset_even.
Qed.

Lemma middle_rows_lookup (E : Env) (b : BoxBorderStyle)
    (textLines : list jsstring) (width po off height : Z)
    (middle : list jsstring) (i : nat) :
  sequence (map (middle_line E b textLines width po off) (seqZ 0 height))
  = Normal middle ->
  Z.of_nat i < height ->
  exists row,
    middle_line E b textLines width po off (Z.of_nat i) = Normal row
    /\ middle !! i = Some row.
Proof.
  intros Hmiddle Hi.
  apply (sequence_lookup _ _ _ Hmiddle i (Z.of_nat i)).
  rewrite lookup_seqZ_lt by exact Hi. f_equal; lia.
Qed.

(** X5: in a box with a non-negative padding the lines of the text
    follow [off] blank rows, where [off] is 0 for [valign: "top"], half
    the padding for ["center"] and the whole padding for ["bottom"]; a
    text row is the vertical glyph, [paddingOffset] spaces, the line, the
    spaces that fill the width, and the vertical glyph; every other row
    between the borders is blank, and in a centered box as many blank
    rows follow the text as precede it. *)
Theorem box_vertical_alignment (E : Env) (text : jsstring) (_opts : BoxOpts)
    (rows : list jsstring) (b : BoxBorderStyle) :
  let st := resolved_style _opts in
  let n := length (split_nl text) in
  let po := paddingOffset (padding st) in
  let width := box_width (split_nl text) po in
  let off :=
    match valign st with
    | Top => 0
    | Center => po / 2
    | Bottom => po
    end in
  box_lines E text _opts = Normal rows ->
  border_glyphs E st = Some b ->
  0 <= padding st ->
  (forall k line,
     split_nl text !! k = Some line ->
     rows !! (1 + Z.to_nat off + k)%nat
     = Some (v b ++ copies po [SP] ++ line
             ++ copies (width - len (stripAnsi E line)) [SP] ++ v b))
  /\ (forall i,
        (i < Z.to_nat off \/ Z.to_nat off + n <= i < n + Z.to_nat po)%nat ->
        rows !! (1 + i)%nat = Some (v b ++ copies (width + po) [SP] ++ v b))
  /\ (valign st = Center -> po - off = off).
Proof.
  intros st n po width off Hrows Hb Hpad.
  assert (Hn : n = length (split_nl text)) by reflexivity. clearbody n.
  pose proof (paddingOffset_nonneg _ Hpad) as Hpo. fold po in Hpo.
  apply box_lines_inv in Hrows
    as (b' & top & middle & bottom & Hb' & _ & Hmiddle & _ & ->).
  fold st in Hb'. rewrite Hb in Hb'. injection Hb' as <-.
  fold st po in Hmiddle. fold width in Hmiddle. rewrite <- Hn in Hmiddle.
  assert (Heven : 2 * (po / 2) = po).
  { destruct (paddingOffset_is_even (padding st)) as (m & Hm).
    fold po in Hm. rewrite Hm.
    rewrite (Z.mul_comm 2 m), Z.div_mul by lia. lia. }
  assert (Hoff : valignOffset (valign st) (Z.of_nat n + po) (Z.of_nat n) po
                 = off /\ 0 <= off <= po).
  { unfold valignOffset, off. destruct (valign st).
    - split; lia.
    - replace (Z.of_nat n + po - Z.of_nat n) with po by lia.
      split; [reflexivity|]. lia.
    - split; lia. }
  destruct Hoff as [Hoff Hrange]. rewrite Hoff in Hmiddle.
  split; [|split].
  - intros k line Hline.
    pose proof (lookup_lt_Some _ _ _ Hline) as Hk.
    destruct (middle_rows_lookup _ _ _ _ _ _ _ _ (Z.to_nat off + k)%nat
                Hmiddle) as (row & Hrow & Hlookup); [lia|].
    change (1 + Z.to_nat off + k)%nat with (S (Z.to_nat off + k)).
    simpl. rewrite lookup_app_l by (apply lookup_lt_Some in Hlookup; lia).
    rewrite Hlookup. f_equal.
    unfold middle_line in Hrow.
    destruct (Z.ltb_spec (Z.of_nat (Z.to_nat off + k)) off); [lia|].
    destruct (Z.leb_spec (off + Z.of_nat (length (split_nl text)))
                (Z.of_nat (Z.to_nat off + k))); [lia|].
    simpl in Hrow.
    replace (Z.to_nat (Z.of_nat (Z.to_nat off + k) - off)) with k in Hrow
      by lia.
    rewrite Hline in Hrow.
    apply bind_Normal in Hrow as (left & Hleft & Hrow).
    apply js_repeat_Normal in Hleft as [_ ->].
    apply bind_Normal in Hrow as (right & Hright & Hrow).
    apply js_repeat_Normal in Hright as [_ ->].
    injection Hrow as <-. reflexivity.
  - intros i Hi.
    destruct (middle_rows_lookup _ _ _ _ _ _ _ _ i Hmiddle)
      as (row & Hrow & Hlookup); [lia|].
    change (1 + i)%nat with (S i). simpl.
    rewrite lookup_app_l by (apply lookup_lt_Some in Hlookup; lia).
    rewrite Hlookup. f_equal.
    unfold middle_line in Hrow.
    replace ((Z.of_nat i <? off)
             || (off + Z.of_nat (length (split_nl text)) <=? Z.of_nat i))
      with true in Hrow.
    + apply bind_Normal in Hrow as (blank & Hblank & Hrow).
      apply js_repeat_Normal in Hblank as [_ ->].
      injection Hrow as <-. reflexivity.
    + symmetry. apply orb_true_iff.
      destruct Hi as [Hi|Hi]; [left; apply Z.ltb_lt | right; apply Z.leb_le];
        lia.
  - intros Hcenter. unfold off. rewrite Hcenter. lia.
Qed.

Lemma box_vertical_alignment_witness :
  let E := plainEnv in
  let opts :=
    {| title := None;
       style := Some {| borderColor := lit "white";
                        borderStyle := Preset (lit "double");
                        valign := Bottom;
                        padding := 2 |} |} in
  let rows := returned [] (box_lines E (lit "hi") opts) in
  rows !! 1%nat = Some ([0x2551%N] ++ lit "      " ++ [0x2551%N])
  /\ rows !! 2%nat = Some ([0x2551%N] ++ lit "      " ++ [0x2551%N])
  /\ rows !! 3%nat = Some ([0x2551%N] ++ lit "  hi  " ++ [0x2551%N]).
Proof.
  intros E opts rows.
  destruct (box_vertical_alignment E (lit "hi") opts rows
              (glyphs 0x2554 0x2557 0x255A 0x255D 0x2550 0x2551))
    as (Htext & Hblank & _).
  - vm_compute. reflexivity.
  - vm_compute. reflexivity.
  - vm_compute. discriminate.
  - split; [|split].
    + apply (Hblank 0%nat). vm_compute. left. lia.
    + apply (Hblank 1%nat). vm_compute. left. lia.
    + apply (Htext 0%nat (lit "hi")). reflexivity.
Defined.

Lemma len_app (a b : jsstring) : len (a ++ b) = len a + len b.
Proof. unfold len. rewrite length_app. lia. Qed.

Lemma copies_len (count : Z) (str : jsstring) :
  0 <= count -> len (copies count str) = count * len str.
Proof.
  intros H. unfold copies.
  rewrite <- (Z2Nat.id count) at 2 by exact H.
  induction (Z.to_nat count) as [|k IH]; [reflexivity|].
  simpl concat. rewrite len_app, IH. lia.
Qed.

(** X6: when the text carries no escape sequences (removing them leaves
    the length of every line, and of the title, as it is) and every
    glyph of the border is one code unit, all rows of a box have the
    same length, [widthOffset + 2]. *)
Theorem box_rows_equal_length (E : Env) (text : jsstring) (_opts : BoxOpts)
    (rows : list jsstring) (b : BoxBorderStyle) :
  let st := resolved_style _opts in
  let po := paddingOffset (padding st) in
  let width := box_width (split_nl text) po in
  box_lines E text _opts = Normal rows ->
  border_glyphs E st = Some b ->
  Forall (fun glyph => len glyph = 1) [tl b; tr b; bl b; br b; h b; v b] ->
  (forall line, line ∈ split_nl text -> len (stripAnsi E line) = len line) ->
  (forall t, given_title _opts = Some t ->
     len (stripAnsi E t) = len t
     /\ len (stripAnsi E (copies ((width - len t) / 2) (h b)))
        = (width - len t) / 2) ->
  Forall (fun row => len row = width + po + 2) rows.
Proof.
  intros st po width Hrows Hb Hglyphs Hlines Htitle.
  apply Forall_cons in Hglyphs as [Htl Hglyphs].
  apply Forall_cons in Hglyphs as [Htr Hglyphs].
  apply Forall_cons in Hglyphs as [Hbl Hglyphs].
  apply Forall_cons in Hglyphs as [Hbr Hglyphs].
  apply Forall_cons in Hglyphs as [Hh Hglyphs].
  apply Forall_cons in Hglyphs as [Hv _].
  apply box_lines_inv in Hrows
    as (b' & top & middle & bottom & Hb' & Htop & Hmiddle & Hbottom & ->).
  fold st in Hb'. rewrite Hb in Hb'. injection Hb' as <-.
  fold st po in Htop, Hmiddle, Hbottom. fold width in Htop, Hmiddle, Hbottom.
  constructor; [|apply Forall_app; split].
  - destruct (given_title _opts) as [t|] eqn:Ht.
    + destruct (Htitle t eq_refl) as [Hvt Hleft].
      apply top_line_inv in Htop as (HL & HR & ->).
      rewrite Hvt in HL, HR |- *. rewrite Hleft in HR |- *.
      rewrite !len_app, !copies_len by assumption. lia.
    + apply rule_line_inv in Htop as (Hn & ->).
      rewrite !len_app, copies_len by assumption. lia.
  - eapply sequence_Forall; [|exact Hmiddle].
    intros i row Hrow. unfold middle_line in Hrow.
    destruct ((i <? valignOffset (valign st)
                      (Z.of_nat (length (split_nl text)) + po)
                      (Z.of_nat (length (split_nl text))) po)
              || (valignOffset (valign st)
                    (Z.of_nat (length (split_nl text)) + po)
                    (Z.of_nat (length (split_nl text))) po
                  + Z.of_nat (length (split_nl text)) <=? i)).
    + apply bind_Normal in Hrow as (blank & Hblank & Hrow).
      apply js_repeat_Normal in Hblank as [Hn ->]. injection Hrow as <-.
      rewrite !len_app, copies_len by assumption.
      change (len [SP]) with 1. lia.
    + destruct (split_nl text !! Z.to_nat _) as [line|] eqn:Hline;
        [|discriminate].
      apply bind_Normal in Hrow as (left & Hleft & Hrow).
      apply js_repeat_Normal in Hleft as [Hpo ->].
      apply bind_Normal in Hrow as (right & Hright & Hrow).
      apply js_repeat_Normal in Hright as [Hfill ->]. injection Hrow as <-.
      rewrite (Hlines line (list_elem_of_lookup_2 _ _ _ Hline)) in Hfill |- *.
      rewrite !len_app, !copies_len by assumption.
      change (len [SP]) with 1. lia.
  - repeat constructor.
    apply rule_line_inv in Hbottom as (Hn & ->).
    rewrite !len_app, copies_len by assumption. lia.
Qed.

Lemma box_rows_equal_length_witness :
  let opts := {| title := Some (lit "T"); style := None |} in
  Forall (fun row => len row = 4 + 2 + 2)
    (returned [] (box_lines plainEnv (lit "hi") opts)).
Proof.
  intros opts.
  apply (box_rows_equal_length plainEnv (lit "hi") opts _
           (glyphs 0x250C 0x2510 0x2514 0x2518 0x2500 0x2502)).
  - vm_compute. reflexivity.
  - vm_compute. reflexivity.
  - repeat constructor.
  - intros line Hline. apply list_elem_of_singleton in Hline as ->.
    vm_compute. reflexivity.
  - intros t [= <-]. split; vm_compute; reflexivity.
Defined.

(** * Further properties of the reporters *)

(** X7: for an [errorLevel] of -1 or more the Basic reporter returns
    the frames of a stack, one on a line, each after
    [2 * (errorLevel + 1)] spaces; a stack without frames gives these
    spaces alone; an [errorLevel] below -1 makes [repeat] raise a
    RangeError. *)
Theorem basic_formatStack_lines (E : Env) (stack : jsstring)
    (opts : FormatOptions) :
  let indent := copies (2 * (level_of opts + 1)) [SP] in
  (level_of opts < -1 ->
   BasicReporter.formatStack E stack opts = Throw RangeError)
  /\ (-1 <= level_of opts ->
      (parseStack E stack = [] ->
       BasicReporter.formatStack E stack opts = Normal indent)
      /\ (parseStack E stack <> [] ->
          Forall (fun frame => NL ∉ frame) (parseStack E stack) ->
          exists out,
            BasicReporter.formatStack E stack opts = Normal out
            /\ split_nl out
               = map (fun frame => indent ++ frame) (parseStack E stack))).
Proof.
  intros indent. split.
  - intros Hlevel. unfold BasicReporter.formatStack.
    rewrite js_repeat_negative by lia. reflexivity.
  - intros Hlevel. split.
    + intros Hframes. unfold BasicReporter.formatStack.
      rewrite js_repeat_nonneg by lia. simpl. rewrite Hframes. simpl.
      rewrite app_nil_r, copies_two_spaces. reflexivity.
    + intros Hne Hframes. apply basic_formatStack_indent; [lia | assumption ..].
Qed.

Lemma basic_formatStack_lines_witness :
  let opts := sampleOptions 0 (Some 1) in
  let stack := sampleStack ++ [NL] ++ lit "    at bar (lib.js:3:4)" in
  exists out,
    BasicReporter.formatStack plainEnv stack opts = Normal out
    /\ split_nl out
       = [lit "    at foo (file.js:1:2)"; lit "    at bar (lib.js:3:4)"].
Proof.
  intros opts stack.
  destruct (basic_formatStack_lines plainEnv stack opts) as (_ & H).
  destruct H as (_ & H); [vm_compute; discriminate|].
  apply H.
  - vm_compute. discriminate.
  - repeat constructor; apply absent_check; vm_compute; reflexivity.
Defined.

Lemma causedPrefix_value (opts : FormatOptions) :
  0 <= level_of opts ->
  causedPrefix opts
  = Normal (if 0 <? level_of opts
            then copies (2 * level_of opts) [SP] ++ lit "[cause]: "
            else []).
Proof.
  intros H. unfold causedPrefix.
  destruct (0 <? level_of opts); [|reflexivity].
  rewrite js_repeat_nonneg by exact H. simpl.
  rewrite copies_two_spaces. reflexivity.
Qed.

(** X8: the text of an error is its message, a line break and its
    formatted stack; at a level above 0 it starts with two spaces per
    level and the marker ["[cause]: "]. The text of a cause follows the
    stack after an empty line, and it is the cause formatted one level
    deeper, so that it starts with the marker and the message of the
    cause. *)
Theorem formatError_layout (E : Env)
    (this_formatStack : jsstring -> FormatOptions -> completion jsstring)
    (fuel : nat) (st : store) (err : value) (opts : FormatOptions)
    (out : jsstring) :
  let prefix (level : Z) :=
    if 0 <? level then copies (2 * level) [SP] ++ lit "[cause]: " else [] in
  0 <= level_of opts ->
  formatError E this_formatStack fuel st err opts = Some (Normal out) ->
  exists stack,
    stack_text this_formatStack st err opts = Normal stack
    /\ match truthy_cause st err with
       | None =>
           out = prefix (level_of opts) ++ message_text E st err opts
                 ++ [NL] ++ stack
       | Some c =>
           let opts' := with_errorLevel opts (level_of opts + 1) in
           exists inner rest,
             formatError E this_formatStack (pred fuel) st c opts'
             = Some (Normal inner)
             /\ out = prefix (level_of opts) ++ message_text E st err opts
                      ++ [NL] ++ stack ++ [NL; NL] ++ inner
             /\ inner = copies (2 * (level_of opts + 1)) [SP]
                        ++ lit "[cause]: " ++ message_text E st c opts'
                        ++ [NL] ++ rest
       end.
Proof.
  intros prefix Hlevel H.
  assert (Hshape : forall fuel err opts out,
    0 <= level_of opts ->
    formatError E this_formatStack fuel st err opts = Some (Normal out) ->
    exists stack causedError,
      stack_text this_formatStack st err opts = Normal stack
      /\ out = prefix (level_of opts) ++ message_text E st err opts
               ++ [NL] ++ stack ++ causedError
      /\ match truthy_cause st err with
         | None => causedError = []
         | Some c =>
             exists inner,
               formatError E this_formatStack (pred fuel) st c
                 (with_errorLevel opts (level_of opts + 1))
               = Some (Normal inner)
               /\ causedError = [NL; NL] ++ inner
         end).
  { clear. intros fuel err opts out Hlevel H.
    destruct fuel as [|fuel]; [discriminate|]. simpl in H.
    destruct (stack_text this_formatStack st err opts) as [stack|];
      [|discriminate].
    rewrite (causedPrefix_value opts Hlevel) in H. simpl in H.
    apply obind_Some in H as (causedError & Hcause & H).
    injection H as <-. exists stack, causedError.
    split; [reflexivity|]. split; [reflexivity|].
    destruct (truthy_cause st err) as [c|].
    - apply obind_Some in Hcause as (inner & Hinner & Hcause).
      injection Hcause as <-. exists inner. auto.
    - injection Hcause as <-. reflexivity. }
  destruct (Hshape fuel err opts out Hlevel H)
    as (stack & causedError & Hstack & -> & Hcause).
  exists stack. split; [exact Hstack|].
  destruct (truthy_cause st err) as [c|].
  - destruct Hcause as (inner & Hinner & ->).
    assert (Hlevel' :
      0 <= level_of (with_errorLevel opts (level_of opts + 1))).
    { change (level_of (with_errorLevel opts (level_of opts + 1)))
        with (level_of opts + 1). lia. }
    destruct (Hshape _ _ _ _ Hlevel' Hinner)
      as (stack' & causedError' & _ & Hinner' & _).
    exists inner, (stack' ++ causedError').
    split; [exact Hinner|]. split; [reflexivity|].
    rewrite Hinner'. unfold prefix.
    change (level_of (with_errorLevel opts (level_of opts + 1)))
      with (level_of opts + 1).
    destruct (Z.ltb_spec 0 (level_of opts + 1)); [|lia].
    rewrite <- !app_assoc. reflexivity.
  - subst causedError. rewrite app_nil_r. reflexivity.
Qed.

Lemma formatError_layout_witness :
  exists inner rest,
    BasicReporter.formatError plainEnv 1 oneCause (VObject 1)
      (sampleOptions 0 (Some 1)) = Some (Normal inner)
    /\ inner = lit "  [cause]: root" ++ [NL] ++ rest.
Proof.
  destruct (formatError_layout plainEnv (BasicReporter.formatStack plainEnv)
              2 oneCause (VObject 0) (sampleOptions 0 None)
              (returned []
                 (default (Normal [])
                    (BasicReporter.formatError plainEnv 2 oneCause
                       (VObject 0) (sampleOptions 0 None)))))
    as (stack & _ & H).
  - vm_compute. discriminate.
  - vm_compute. reflexivity.
  - simpl in H. destruct H as (inner & rest & Hinner & _ & Hshape).
    exists inner, rest. split; [exact Hinner | exact Hshape].
Defined.

Lemma map_args_plain (E : Env)
    (this_formatStack : jsstring -> FormatOptions -> completion jsstring)
    (fuel : nat) (st : store) (args : list value) (opts : FormatOptions) :
  Forall (fun arg => has_stack st arg = false) args ->
  map_args E this_formatStack fuel st args opts = Some (Normal args).
Proof.
  induction 1 as [|arg args Harg _ IH]; simpl; [reflexivity|].
  rewrite Harg, IH. reflexivity.
Qed.

Lemma map_args_app (E : Env)
    (this_formatStack : jsstring -> FormatOptions -> completion jsstring)
    (fuel : nat) (st : store) (before after : list value)
    (opts : FormatOptions) :
  Forall (fun arg => has_stack st arg = false) before ->
  map_args E this_formatStack fuel st (before ++ after) opts
  = let!! after' := map_args E this_formatStack fuel st after opts in
    Some (Normal (before ++ after')).
Proof.
  induction 1 as [|arg args Harg _ IH]; simpl.
  - destruct (map_args E this_formatStack fuel st after opts) as [[?|?]|];
      reflexivity.
  - rewrite Harg, IH. simpl.
    destruct (map_args E this_formatStack fuel st after opts) as [[?|?]|];
      reflexivity.
Qed.

(** X9: [formatArgs] hands the arguments that carry no stack to
    [formatWithOptions] as they are, whatever the depth allowed for
    errors; an argument with a stack is replaced by the text that
    [formatError] gives for it, in its place among the others. *)
Theorem formatArgs_replaces_errors (E : Env)
    (this_formatStack : jsstring -> FormatOptions -> completion jsstring)
    (fuel : nat) (st : store) (before after : list value) (err : value)
    (opts : FormatOptions) (text : jsstring) :
  Forall (fun arg => has_stack st arg = false) before ->
  Forall (fun arg => has_stack st arg = false) after ->
  has_stack st err = true ->
  formatError E this_formatStack fuel st err opts = Some (Normal text) ->
  formatArgs E this_formatStack fuel st (before ++ err :: after) opts
  = Some (Normal
            (formatWithOptions E st opts (before ++ VString text :: after)))
  /\ forall fuel',
       formatArgs E this_formatStack fuel' st (before ++ after) opts
       = Some (Normal (formatWithOptions E st opts (before ++ after))).
Proof.
  intros Hbefore Hafter Herr Htext. split.
  - unfold formatArgs. rewrite map_args_app by exact Hbefore. simpl.
    rewrite Herr, Htext. simpl.
    rewrite map_args_plain by exact Hafter. reflexivity.
  - intros fuel'. unfold formatArgs.
    rewrite map_args_plain; [reflexivity|].
    apply Forall_app. split; assumption.
Qed.

Lemma formatArgs_replaces_errors_witness :
  let opts := sampleOptions 0 None in
  let err := VObject 1 in
  exists text,
    BasicReporter.formatError plainEnv 1 oneCause err opts
    = Some (Normal text)
    /\ BasicReporter.formatArgs plainEnv 1 oneCause
         [VString (lit "failed:"); err; VNumber 3] opts
       = Some (Normal
                 (formatWithOptions plainEnv oneCause opts
                    [VString (lit "failed:"); VString text; VNumber 3])).
Proof.
  intros opts err.
  exists (returned []
            (default (Normal [])
               (BasicReporter.formatError plainEnv 1 oneCause err opts))).
  split; [vm_compute; reflexivity|].
  apply (formatArgs_replaces_errors plainEnv
           (BasicReporter.formatStack plainEnv) 1 oneCause
           [VString (lit "failed:")] [VNumber 3] err opts).
  - repeat constructor.
  - repeat constructor.
  - reflexivity.
  - vm_compute. reflexivity.
Defined.

Lemma filterAndJoin_cons (x : jsstring) (xs : list jsstring) :
  filterAndJoin (x :: xs) = spaced x (filterAndJoin xs).
Proof.
  unfold filterAndJoin, spaced. destruct x as [|c x].
  - rewrite filter_cons_False by discriminate. reflexivity.
  - rewrite filter_cons_True by reflexivity. simpl.
    destruct (filter (fun y => truthy y = true) xs) as [|y ys] eqn:Hxs.
    + reflexivity.
    + assert (Hy : truthy y = true).
      { assert (Hin : y ∈ filter (fun y => truthy y = true) xs)
          by (rewrite Hxs; apply list_elem_of_here).
        apply list_elem_of_filter in Hin. tauto. }
      destruct y as [|d y]; [discriminate|].
      destruct ys; reflexivity.
Qed.

Lemma filterAndJoin_nil : filterAndJoin [] = [].
Proof. reflexivity. Qed.

(** X10: for a record that is not a box, the line of the Basic reporter
    is the type in brackets, the tag in brackets and the message, with
    one space between two of them; an empty type, tag or message leaves
    neither brackets nor a space. *)
Theorem basic_line_layout (E : Env) (fuel : nat) (st : store)
    (logObj : LogObject) (opts : FormatOptions) (message : jsstring) :
  log_type logObj <> lit "box" ->
  BasicReporter.formatArgs E fuel st (log_args logObj) opts
  = Some (Normal message) ->
  BasicReporter.formatLogObj E fuel st logObj opts
  = Some (Normal
            (spaced (bracket (log_type logObj))
               (spaced (bracket (log_tag logObj)) message)))
  /\ (truthy (log_type logObj) = true ->
      truthy (log_tag logObj) = true -> truthy message = true ->
      BasicReporter.formatLogObj E fuel st logObj opts
      = Some (Normal (lit "[" ++ log_type logObj ++ lit "] ["
                      ++ log_tag logObj ++ lit "] " ++ message)))
  /\ (truthy (log_type logObj) = true ->
      log_tag logObj = [] -> truthy message = true ->
      BasicReporter.formatLogObj E fuel st logObj opts
      = Some (Normal (lit "[" ++ log_type logObj ++ lit "] " ++ message))).
Proof.
  intros Htype Hmessage.
  assert (Hline :
    BasicReporter.formatLogObj E fuel st logObj opts
    = Some (Normal
              (spaced (bracket (log_type logObj))
                 (spaced (bracket (log_tag logObj)) message)))).
  { unfold BasicReporter.formatLogObj. rewrite Hmessage. simpl.
    rewrite bool_decide_eq_false_2 by exact Htype.
    rewrite !filterAndJoin_cons, filterAndJoin_nil.
    destruct message; reflexivity. }
  split; [exact Hline|]. split.
  - intros Hty Htag Hmsg. rewrite Hline. unfold bracket.
    rewrite Hty, Htag. unfold spaced. simpl. rewrite Hmsg. simpl.
    rewrite <- !app_assoc. reflexivity.
  - intros Hty Htag Hmsg. rewrite Hline. unfold bracket.
    rewrite Hty, Htag. unfold spaced. simpl. rewrite Hmsg.
    rewrite <- !app_assoc. reflexivity.
Qed.

Lemma basic_line_layout_witness :
  BasicReporter.formatLogObj plainEnv 0 noObjects (sampleRecord "info" 3)
    (sampleOptions 0 None)
  = Some (Normal (lit "[info] [app] hello `world`")).
Proof.
  destruct (basic_line_layout plainEnv 0 noObjects (sampleRecord "info" 3)
              (sampleOptions 0 None) (lit "hello `world`"))
    as (_ & H & _).
  - discriminate.
  - reflexivity.
  - apply H; reflexivity.
Defined.

Lemma join_single_line_rows (rows : list jsstring) :
  rows <> [] -> Forall (fun row => NL ∉ row) rows ->
  split_nl (join [NL] rows ++ [NL]) = rows ++ [[]].
Proof.
  induction rows as [|row rows IH]; intros Hne Hrows; [congruence|].
  inversion Hrows as [|? ? Hrow Hrest]; subst.
  destruct rows as [|row' rows].
  - simpl join. apply (split_nl_app row []), Hrow.
  - change (join [NL] (row :: row' :: rows))
      with (row ++ NL :: join [NL] (row' :: rows)).
    rewrite <- app_assoc. simpl app at 2.
    change (split_nl (row ++ NL :: join [NL] (row' :: rows) ++ [NL])
            = row :: (row' :: rows) ++ [[]]).
    rewrite split_nl_app by exact Hrow.
    rewrite IH; [reflexivity | discriminate | exact Hrest].
Qed.

(** X11: for a box record the Basic reporter prints a block between
    two line breaks: the tag in brackets, the title and the lines of the
    message, each on a line of its own after [" > "]. Empty ones among
    them, also the empty lines of the message, are left out. *)
Theorem basic_box_block (E : Env) (fuel : nat) (st : store)
    (logObj : LogObject) (opts : FormatOptions) (message : jsstring) :
  let parts :=
    filter (fun part => truthy part = true)
      (bracket (log_tag logObj) :: default [] (log_title logObj)
       :: split_nl message) in
  log_type logObj = lit "box" ->
  BasicReporter.formatArgs E fuel st (log_args logObj) opts
  = Some (Normal message) ->
  NL ∉ log_tag logObj ->
  NL ∉ default [] (log_title logObj) ->
  parts <> [] ->
  exists out,
    BasicReporter.formatLogObj E fuel st logObj opts = Some (Normal out)
    /\ split_nl out = [] :: map (fun part => lit " > " ++ part) parts ++ [[]].
Proof.
  intros parts Htype Hmessage Htag Htitle Hparts.
  unfold BasicReporter.formatLogObj. rewrite Hmessage. simpl.
  rewrite bool_decide_eq_true_2 by exact Htype.
  eexists. split; [reflexivity|]. fold parts.
  change (split_nl
            (NL :: join [NL] (map (fun l => lit " > " ++ l) parts) ++ [NL])
          = [] :: map (fun part => lit " > " ++ part) parts ++ [[]]).
  change (NL :: ?x) with ([] ++ NL :: x).
  rewrite (split_nl_app []) by apply not_elem_of_nil. f_equal.
  apply join_single_line_rows.
  - destruct parts; [congruence | discriminate].
  - apply Forall_map. apply Forall_forall. intros part Hpart.
    assert (Hsingle : NL ∉ part).
    { apply list_elem_of_filter in Hpart as [_ Hpart].
      apply elem_of_cons in Hpart as [->|Hpart].
      - unfold bracket. destruct (truthy (log_tag logObj));
          [|apply not_elem_of_nil].
        rewrite !elem_of_app.
        assert (NL ∉ lit "[") by (apply absent_check; reflexivity).
        assert (NL ∉ lit "]") by (apply absent_check; reflexivity). tauto.
      - apply elem_of_cons in Hpart as [->|Hpart]; [exact Htitle|].
        pose proof (split_nl_single_lines message) as Hlines.
        rewrite Forall_forall in Hlines. apply Hlines, Hpart. }
    cbv beta. rewrite elem_of_app.
    assert (NL ∉ lit " > ") by (apply absent_check; reflexivity). tauto.
Qed.

Lemma basic_box_block_witness :
  let logObj :=
    {| log_type := lit "box";
       log_level := 3;
       log_args := [VString (lit "one" ++ [NL; NL] ++ lit "two")];
       log_tag := lit "app";
       log_date := 0;
       log_message := None;
       log_title := Some (lit "Title");
       log_style := None;
       log_badge := None;
       log_icon := None |} in
  exists out,
    BasicReporter.formatLogObj plainEnv 0 noObjects logObj
      (sampleOptions 0 None) = Some (Normal out)
    /\ split_nl out
       = [[]; lit " > [app]"; lit " > Title"; lit " > one"; lit " > two"; []].
Proof.
  intros logObj.
  apply (basic_box_block plainEnv 0 noObjects logObj (sampleOptions 0 None)
           (lit "one" ++ [NL; NL] ++ lit "two")).
  - reflexivity.
  - reflexivity.
  - apply absent_check. reflexivity.
  - apply absent_check. reflexivity.
  - discriminate.
Defined.

(** ** What the reporters raise, and what they never write *)

Section NoThrow.
Context (E : Env).
Context (this_formatStack : jsstring -> FormatOptions -> completion jsstring).
(* options for which [this.formatStack] returns, kept by the recursion *)
Context (I : FormatOptions -> Prop).
Context (I_next :
  forall opts, I opts -> I (with_errorLevel opts (level_of opts + 1))).
Context (I_returns :
  forall stack opts, I opts ->
    exists out, this_formatStack stack opts = Normal out).

Lemma stack_text_returns (st : store) (err : value) (opts : FormatOptions) :
  I opts -> exists stack, stack_text this_formatStack st err opts = Normal stack.
Proof.
  intros Hopts. unfold stack_text.
  destruct (stack_of st err) as [s|]; [|eauto].
  destruct (truthy s); [apply I_returns, Hopts | eauto].
Qed.

Lemma formatError_no_throw (fuel : nat) :
  forall st err opts e,
    I opts -> formatError E this_formatStack fuel st err opts <> Some (Throw e).
Proof.
  induction fuel as [|fuel IH]; intros st err opts e Hopts; [discriminate|].
  simpl. destruct (stack_text_returns st err opts Hopts) as (stack & ->).
  destruct (causedPrefix_returns opts) as (prefix & ->). simpl.
  destruct (truthy_cause st err) as [c|]; [|discriminate].
  specialize (IH st c (with_errorLevel opts (level_of opts + 1))).
  destruct (formatError E this_formatStack fuel st c
              (with_errorLevel opts (level_of opts + 1))) as [[inner|e']|];
    simpl; [discriminate | | discriminate].
  exfalso. apply (IH e'); auto.
Qed.

Lemma map_args_no_throw (fuel : nat) (st : store) (args : list value)
    (opts : FormatOptions) (e : js_error) :
  I opts -> map_args E this_formatStack fuel st args opts <> Some (Throw e).
Proof.
  intros Hopts. induction args as [|arg args IH]; simpl; [discriminate|].
  destruct (has_stack st arg).
  - pose proof (formatError_no_throw fuel st arg opts) as Harg.
    destruct (formatError E this_formatStack fuel st arg opts)
      as [[text|e']|]; simpl; [| exfalso; eapply Harg; eauto | discriminate].
    destruct (map_args E this_formatStack fuel st args opts) as [[?|?]|];
      simpl; [discriminate | exact IH | discriminate].
  - simpl.
    destruct (map_args E this_formatStack fuel st args opts) as [[?|?]|];
      simpl; [discriminate | exact IH | discriminate].
Qed.

Lemma formatArgs_no_throw (fuel : nat) (st : store) (args : list value)
    (opts : FormatOptions) (e : js_error) :
  I opts -> formatArgs E this_formatStack fuel st args opts <> Some (Throw e).
Proof.
  intros Hopts. unfold formatArgs.
  pose proof (map_args_no_throw fuel st args opts) as Hargs.
  destruct (map_args E this_formatStack fuel st args opts) as [[?|e']|];
    simpl; [discriminate | | discriminate].
  exfalso. eapply Hargs; eauto.
Qed.

(** An argument that is its own cause keeps [formatArgs] from
    returning. *)
Lemma formatArgs_self_cause (st : store) (a : nat) (stack : jsstring)
    (before after : list value) (opts : FormatOptions) :
  o_stack (st a) = Some stack ->
  o_cause (st a) = Some (VObject a) ->
  I opts ->
  forall fuel,
    formatArgs E this_formatStack fuel st (before ++ VObject a :: after) opts
    = None.
Proof.
  intros Hstack Hcause Hopts fuel. unfold formatArgs.
  assert (Hargs :
    map_args E this_formatStack fuel st (before ++ VObject a :: after) opts
    = None); [|rewrite Hargs; reflexivity].
  induction before as [|arg before IH]; simpl.
  - unfold has_stack. simpl. rewrite Hstack. simpl.
    rewrite (formatError_self_cause E this_formatStack st a I Hcause I_next)
      by (intros opts' Hopts';
          destruct (stack_text_returns st (VObject a) opts' Hopts')
            as (s & ->);
          destruct (causedPrefix_returns opts') as (p & ->); eauto)
         || exact Hopts.
    reflexivity.
  - rewrite IH.
    destruct (has_stack st arg); simpl; [|reflexivity].
    pose proof (formatError_no_throw fuel st arg opts) as Harg.
    destruct (formatError E this_formatStack fuel st arg opts)
      as [[text|e']|]; simpl; [reflexivity | | reflexivity].
    exfalso. eapply Harg; eauto.
Qed.

(** An error whose chain of causes ends within the depth the formatter
    is allowed is formatted to a text. *)
Lemma formatError_text (st : store) (err : value) (n : nat)
    (opts : FormatOptions) (fuel : nat) :
  I opts -> cause_depth st err n -> (n < fuel)%nat ->
  exists text, formatError E this_formatStack fuel st err opts
               = Some (Normal text).
Proof.
  intros Hopts Hdepth Hfuel.
  destruct (formatError_returns E this_formatStack st err n Hdepth opts fuel
              Hfuel) as ([text|e] & Hout & _); [eauto|].
  exfalso. exact (formatError_no_throw fuel st err opts e Hopts Hout).
Qed.

Lemma map_args_returns (fuel : nat) (st : store) (args : list value)
    (opts : FormatOptions) :
  I opts ->
  Forall (fun arg =>
            has_stack st arg = true ->
            exists n, cause_depth st arg n /\ (n < fuel)%nat) args ->
  exists _args, map_args E this_formatStack fuel st args opts
                = Some (Normal _args).
Proof.
  intros Hopts. induction 1 as [|arg args Harg _ IH]; simpl; [eauto|].
  destruct IH as (rest & ->).
  destruct (has_stack st arg); [|simpl; eauto].
  destruct (Harg eq_refl) as (n & Hdepth & Hfuel).
  destruct (formatError_text st arg n opts fuel Hopts Hdepth Hfuel)
    as (text & ->).
  simpl. eauto.
Qed.

Lemma formatArgs_returns (fuel : nat) (st : store) (args : list value)
    (opts : FormatOptions) :
  I opts ->
  Forall (fun arg =>
            has_stack st arg = true ->
            exists n, cause_depth st arg n /\ (n < fuel)%nat) args ->
  exists text, formatArgs E this_formatStack fuel st args opts
               = Some (Normal text).
Proof.
  intros Hopts Hargs. unfold formatArgs.
  destruct (map_args_returns fuel st args opts Hopts Hargs) as (_args & ->).
  simpl. eauto.
Qed.

End NoThrow.

Lemma formatType_returns (E : Env) (logObj : LogObject) (badge : bool)
    (opts : FormatOptions) :
  badge = false \/ log_type logObj ∉ object_prototype_keys ->
  exists out, FancyReporter.formatType E logObj badge opts = Normal out.
Proof.
  destruct badge; [|unfold FancyReporter.formatType; eauto].
  intros [Hbadge|Hkey]; [discriminate|].
  pose proof (typeColor_chain logObj Hkey) as Hcolor.
  pose proof (chain_color_truthy logObj) as Htruthy.
  destruct (chain_color logObj) as [|c rest]; [discriminate|].
  rewrite (formatType_badge E logObj opts c rest Hcolor). eauto.
Qed.

Lemma compose_line_returns (E : Env) (l r : jsstring) (opts : FormatOptions) :
  exists line, FancyReporter.compose_line E l r opts = Normal line.
Proof.
  unfold FancyReporter.compose_line.
  destruct (Z.ltb_spec 0 (columns opts - stringWidth E l - stringWidth E r - 2));
    simpl; [|eauto].
  destruct (80 <=? columns opts); [|eauto].
  rewrite js_repeat_nonneg by lia. simpl. eauto.
Qed.

Lemma fancy_formatStack_returns (E : Env) (stack : jsstring)
    (opts : FormatOptions) :
  True -> exists out, FancyReporter.formatStack E stack opts = Normal out.
Proof. intros _. unfold FancyReporter.formatStack. eauto. Qed.

Lemma fancy_formatLogObj_line (E : Env) (fuel : nat) (st : store)
    (logObj : LogObject) (opts : FormatOptions) (text : jsstring) :
  log_type logObj <> lit "box" ->
  FancyReporter.isBadge logObj = false
  \/ log_type logObj ∉ object_prototype_keys ->
  FancyReporter.formatArgs E fuel st (log_args logObj) opts
  = Some (Normal text) ->
  exists line,
    FancyReporter.formatLogObj E fuel st logObj opts = Some (Normal line).
Proof.
  intros Htype Hbadge Htext. unfold FancyReporter.formatLogObj.
  rewrite Htext. simpl.
  rewrite bool_decide_eq_false_2 by exact Htype.
  destruct (formatType_returns E logObj (FancyReporter.isBadge logObj) opts
              Hbadge) as (type & ->). simpl.
  destruct (compose_line_returns E
              (FancyReporter.left E type (default [] (head (split_nl text))))
              (FancyReporter.right E logObj opts) opts) as (line & ->).
  simpl. destruct (bool_decide (log_type logObj = lit "trace")); simpl; eauto.
Qed.

(** X12: with the Fancy reporter, formatting returns where it can. An
    error whose chain of causes ends within the depth of calls the
    formatter is allowed is formatted to a text. A record that is not a
    box, whose arguments with a stack have such chains, and that has no
    badge or a type that is not the name of a member inherited from
    [Object.prototype], is formatted to a line: nothing is raised and
    the calls do not run out. (A box record can raise what [box] raises;
    a badge for an inherited name raises a TypeError.) *)
Theorem fancy_never_throws (E : Env) (fuel : nat) (st : store)
    (logObj : LogObject) (opts : FormatOptions) :
  log_type logObj <> lit "box" ->
  FancyReporter.isBadge logObj = false
  \/ log_type logObj ∉ object_prototype_keys ->
  Forall (fun arg =>
            has_stack st arg = true ->
            exists n, cause_depth st arg n /\ (n < fuel)%nat)
    (log_args logObj) ->
  (exists line,
     FancyReporter.formatLogObj E fuel st logObj opts = Some (Normal line))
  /\ (forall err n,
        cause_depth st err n -> (n < fuel)%nat ->
        exists text,
          FancyReporter.formatError E fuel st err opts = Some (Normal text)).
Proof.
  intros Htype Hbadge Hargs. split.
  - destruct (formatArgs_returns E (FancyReporter.formatStack E)
                (fun _ => True) ltac:(auto)
                ltac:(auto using fancy_formatStack_returns)
                fuel st (log_args logObj) opts I Hargs) as (text & Htext).
    exact (fancy_formatLogObj_line E fuel st logObj opts text Htype Hbadge
             Htext).
  - intros err n Hdepth Hfuel.
    exact (formatError_text E (FancyReporter.formatStack E)
             (fun _ => True) ltac:(auto)
             ltac:(auto using fancy_formatStack_returns)
             st err n opts fuel I Hdepth Hfuel).
Qed.

Lemma fancy_never_throws_witness :
  (exists line,
     FancyReporter.formatLogObj ansiEnv 3 oneCause
       (sampleRecord "trace" 5) (sampleOptions 100 None)
     = Some (Normal line))
  /\ exists text,
       FancyReporter.formatError ansiEnv 3 oneCause (VObject 0%nat)
         (sampleOptions 100 None)
       = Some (Normal text).
Proof.
  destruct (fancy_never_throws ansiEnv 3 oneCause (sampleRecord "trace" 5)
              (sampleOptions 100 None)) as (Hline & Herr).
  - discriminate.
  - left. reflexivity.
  - repeat constructor. discriminate.
  - split; [exact Hline|].
    apply (Herr (VObject 0%nat) 1%nat); [|lia].
    eapply depth_step; [reflexivity|]. apply depth_end. reflexivity.
Defined.

(** X13: a record with an argument that has a stack and is its own cause
    is never written. Whatever depth the formatter is allowed, [log]
    does not get to its write: with the Fancy reporter for all options,
    with the Basic reporter when the configured [errorLevel] is absent or
    not negative. *)
Theorem log_self_cause_never_writes (E : Env) (st : store) (a : nat)
    (stack : jsstring) (logObj : LogObject) (before after : list value)
    (options : ConsolaOptions) (out : stream) (w : world) :
  o_stack (st a) = Some stack ->
  o_cause (st a) = Some (VObject a) ->
  log_args logObj = before ++ VObject a :: after ->
  stdout options = Some out ->
  (forall fuel, FancyReporter.log E fuel st logObj options w = None)
  /\ (0 <= default 0 (fo_errorLevel (formatOptions options)) ->
      forall fuel, BasicReporter.log E fuel st logObj options w = None).
Proof.
  intros Hstack Hcause Hargs Hout. split.
  - intros fuel.
    unfold FancyReporter.log, log, FancyReporter.formatLine, formatLine.
    rewrite Hout. unfold FancyReporter.formatLogObj.
    unfold FancyReporter.formatArgs. rewrite Hargs.
    rewrite (formatArgs_self_cause E (FancyReporter.formatStack E)
               (fun _ => True)) with (stack := stack);
      auto using fancy_formatStack_returns.
  - intros Hlevel fuel.
    assert (Hnext : forall opts,
      0 <= level_of opts ->
      0 <= level_of (with_errorLevel opts (level_of opts + 1))).
    { intros opts Hopts.
      change (level_of (with_errorLevel opts (level_of opts + 1)))
        with (level_of opts + 1). lia. }
    assert (Hreturns : forall s opts,
      0 <= level_of opts ->
      exists text, BasicReporter.formatStack E s opts = Normal text).
    { intros s opts Hopts. unfold BasicReporter.formatStack.
      rewrite js_repeat_nonneg by lia. simpl. eauto. }
    assert (Hopts : 0 <= level_of (line_options out (formatOptions options))).
    { unfold level_of, line_options. simpl.
      destruct (fo_errorLevel (formatOptions options)); simpl in *; lia. }
    unfold BasicReporter.log, log, BasicReporter.formatLine, formatLine.
    rewrite Hout. unfold BasicReporter.formatLogObj.
    unfold BasicReporter.formatArgs. rewrite Hargs.
    rewrite (formatArgs_self_cause E (BasicReporter.formatStack E)
               (fun opts => 0 <= level_of opts) Hnext Hreturns st a stack
               before after _ Hstack Hcause Hopts fuel).
    reflexivity.
Qed.

Lemma log_self_cause_never_writes_witness :
  let logObj :=
    {| log_type := lit "error";
       log_level := 0;
       log_args := [VString (lit "failed:"); VObject 0];
       log_tag := [];
       log_date := 0;
       log_message := None;
       log_title := None;
       log_style := None;
       log_badge := None;
       log_icon := None |} in
  (forall fuel,
     FancyReporter.log ansiEnv fuel selfCause logObj (sampleConsola 80)
       (fun _ => []) = None)
  /\ (forall fuel,
        BasicReporter.log ansiEnv fuel selfCause logObj (sampleConsola 80)
          (fun _ => []) = None).
Proof.
  intros logObj.
  destruct (log_self_cause_never_writes ansiEnv selfCause 0 sampleStack logObj
              [VString (lit "failed:")] [] (sampleConsola 80)
              {| sid := UserStream 1; stream_columns := Some 80 |}
              (fun _ => [])) as (Hfancy & Hbasic);
    try reflexivity.
  split; [exact Hfancy|]. apply Hbasic. vm_compute. discriminate.
Defined.

(** X14: [log] writes nothing but a formatted line. Without
    [options.stdout] it raises a TypeError for every record, also for one
    that would go to the error stream, because the column count is read
    from [stdout] first; an exception of the formatter is passed on; and
    a call that returns has formatted the record with the options of
    [stdout] and changed the streams by the one chunk of that line. *)
Theorem log_writes_formatted_lines_only
    (this_formatLogObj :
       nat -> store -> LogObject -> FormatOptions -> outcome jsstring)
    (fuel : nat) (st : store) (logObj : LogObject)
    (options : ConsolaOptions) (w : world) :
  (stdout options = None ->
   log this_formatLogObj fuel st logObj options w = Some (Throw TypeError))
  /\ (forall out e,
        stdout options = Some out ->
        this_formatLogObj fuel st logObj
          (line_options out (formatOptions options)) = Some (Throw e) ->
        log this_formatLogObj fuel st logObj options w = Some (Throw e))
  /\ (forall w',
        log this_formatLogObj fuel st logObj options w = Some (Normal w') ->
        exists out line,
          stdout options = Some out
          /\ this_formatLogObj fuel st logObj
               (line_options out (formatOptions options))
             = Some (Normal line)
          /\ w' = writeStream (line ++ [NL]) (target logObj options) w).
Proof.
  unfold log, formatLine. split; [|split].
  - intros ->. reflexivity.
  - intros out e -> ->. reflexivity.
  - intros w' H. destruct (stdout options) as [out|]; [|discriminate].
    apply obind_Some in H as (line & Hline & H). injection H as <-.
    exists out, line. auto.
Qed.

Lemma log_writes_formatted_lines_only_witness :
  let options :=
    {| stdout := None;
       stderr := Some {| sid := UserStream 2; stream_columns := None |};
       formatOptions :=
         {| fo_columns := Some 80; fo_date := None; fo_errorLevel := None |}
    |} in
  BasicReporter.log plainEnv 1 noObjects (sampleRecord "error" 0) options
    (fun _ => [])
  = Some (Throw TypeError).
Proof.
  intros options.
  apply (log_writes_formatted_lines_only (BasicReporter.formatLogObj plainEnv)
           1 noObjects (sampleRecord "error" 0) options (fun _ => [])).
  reflexivity.
Defined.

(** ** The Fancy reporter *)

Lemma head_split_nl (line rest : jsstring) :
  NL ∉ line -> head (split_nl (line ++ NL :: rest)) = Some line.
Proof. intros H. rewrite split_nl_app by exact H. reflexivity. Qed.

(** X15: of the message of a box record the Fancy reporter renders the
    first line only: the box is the box of that line, highlighted, with
    the title and the style of the record, whatever follows the first
    line break of the message. *)
Theorem fancy_box_first_line_only (E : Env) (fuel : nat) (st : store)
    (logObj : LogObject) (opts : FormatOptions) (line rest : jsstring) :
  log_type logObj = lit "box" ->
  NL ∉ line ->
  FancyReporter.formatArgs E fuel st (log_args logObj) opts
  = Some (Normal (line ++ NL :: rest)) ->
  FancyReporter.formatLogObj E fuel st logObj opts
  = Some (box E (FancyReporter.highlightBackticks E line)
            {| title := log_title logObj; style := log_style logObj |}).
Proof.
  intros Htype Hline Htext. unfold FancyReporter.formatLogObj.
  rewrite Htext. simpl obind.
  rewrite bool_decide_eq_true_2 by exact Htype.
  rewrite head_split_nl by exact Hline. reflexivity.
Qed.

Lemma fancy_box_first_line_only_witness :
  let logObj :=
    {| log_type := lit "box";
       log_level := 3;
       log_args := [VString (lit "first" ++ [NL] ++ lit "second")];
       log_tag := [];
       log_date := 0;
       log_message := None;
       log_title := None;
       log_style := None;
       log_badge := None;
       log_icon := None |} in
  FancyReporter.formatLogObj plainEnv 0 noObjects logObj (sampleOptions 0 None)
  = Some (box plainEnv (lit "first") {| title := None; style := None |}).
Proof.
  intros logObj.
  apply (fancy_box_first_line_only plainEnv 0 noObjects logObj
           (sampleOptions 0 None) (lit "first") (lit "second")).
  - reflexivity.
  - apply absent_check. reflexivity.
  - reflexivity.
Defined.

Lemma TYPE_ICONS_own (E : Env) (key : jsstring) :
  key ∈ object_prototype_keys -> FancyReporter.TYPE_ICONS E !! key = None.
Proof.
  intros Hkey. unfold object_prototype_keys in Hkey.
  repeat (apply elem_of_cons in Hkey as [->|Hkey]; [reflexivity|]).
  apply elem_of_nil in Hkey. contradiction.
Qed.

(** X16: without a badge, a type that has an entry in [TYPE_ICONS] is
    shown by that entry in the type color, and the [icon] of the record
    is not looked at; the entry of the type ["log"] is empty, so that
    nothing is shown for it. A type without an entry is shown by the
    [icon] of the record, or by its own name when the record has none.
    The type color is the colorette color named by the type table, else
    by the level table, else gray, and white when colorette has no color
    of that name; a type that is the name of a member inherited from
    [Object.prototype] has no entry in [TYPE_ICONS] and is painted with
    what colorette has under the text of that member, else white. *)
Theorem fancy_icon_resolution (E : Env) (logObj : LogObject)
    (opts : FormatOptions) :
  let color := FancyReporter.getColor E (FancyReporter.typeColor logObj) in
  (forall icon other,
     FancyReporter.TYPE_ICONS E !! log_type logObj = Some icon ->
     FancyReporter.formatType E (with_icon logObj other) false opts
     = Normal (if truthy icon then color icon else []))
  /\ (forall other,
        log_type logObj = lit "log" ->
        FancyReporter.formatType E (with_icon logObj other) false opts
        = Normal [])
  /\ (FancyReporter.TYPE_ICONS E !! log_type logObj = None ->
      truthy (log_type logObj) = true ->
      FancyReporter.formatType E logObj false opts
      = Normal (color (or_else (log_icon logObj) (log_type logObj))))
  /\ (log_type logObj ∉ object_prototype_keys ->
      color = default (white E) (colorette E (chain_color logObj)))
  /\ (log_type logObj ∈ object_prototype_keys ->
      FancyReporter.TYPE_ICONS E !! log_type logObj = None
      /\ color
         = default (white E)
             (colorette E (inherited_text (log_type logObj)))).
Proof.
  intros color.
  assert (Hentry : forall icon other,
    FancyReporter.TYPE_ICONS E !! log_type logObj = Some icon ->
    FancyReporter.formatType E (with_icon logObj other) false opts
    = Normal (if truthy icon then color icon else [])).
  { intros icon other Hicon. unfold FancyReporter.formatType.
    change (log_type (with_icon logObj other)) with (log_type logObj).
    rewrite Hicon. reflexivity. }
  split; [exact Hentry|]. split; [|split; [|split]].
  - intros other Htype.
    rewrite (Hentry [] other); [reflexivity|].
    rewrite Htype. reflexivity.
  - intros Hnone Htype. unfold FancyReporter.formatType. rewrite Hnone.
    replace (truthy (or_else (log_icon logObj) (log_type logObj)))
      with true; [reflexivity|].
    unfold or_else. destruct (log_icon logObj) as [icon|]; [|congruence].
    destruct (truthy icon) eqn:Hicon; congruence.
  - intros Hkey. unfold color. rewrite (typeColor_chain logObj Hkey).
    reflexivity.
  - intros Hkey. split; [exact (TYPE_ICONS_own E _ Hkey)|].
    unfold color. rewrite (typeColor_inherited logObj Hkey). reflexivity.
Qed.

Lemma fancy_icon_resolution_witness :
  FancyReporter.formatType ansiEnv
    (with_icon (sampleRecord "log" 2) (Some (lit "*"))) false
    (sampleOptions 0 None) = Normal []
  /\ FancyReporter.formatType ansiEnv
       (with_icon (sampleRecord "custom" 3) (Some (lit "*"))) false
       (sampleOptions 0 None)
     = Normal (paint "90" "39" (lit "*"))
  /\ FancyReporter.formatType ansiEnv (sampleRecord "constructor" 3) false
       (sampleOptions 0 None)
     = Normal (paint "37" "39" (lit "constructor")).
Proof.
  destruct (fancy_icon_resolution ansiEnv (sampleRecord "log" 2)
              (sampleOptions 0 None)) as (_ & Hlog & _).
  destruct (fancy_icon_resolution ansiEnv
              (with_icon (sampleRecord "custom" 3) (Some (lit "*")))
              (sampleOptions 0 None)) as (_ & _ & Hcustom & _).
  destruct (fancy_icon_resolution ansiEnv (sampleRecord "constructor" 3)
              (sampleOptions 0 None)) as (_ & _ & Hshown & _ & Hinherited).
  split; [|split].
  - apply Hlog. reflexivity.
  - rewrite Hcustom by reflexivity. vm_compute. reflexivity.
  - destruct Hinherited as (Hnone & _).
    { unfold object_prototype_keys. apply list_elem_of_here. }
    rewrite (Hshown Hnone eq_refl). vm_compute. reflexivity.
Defined.

Lemma dot_run_concat (str : jsstring) :
  (dot_run str).1 ++ (dot_run str).2 = str.
Proof.
  induction str as [|c rest IH]; simpl; [reflexivity|].
  destruct (is_line_terminator c); [reflexivity|].
  destruct (dot_run rest) as [run after]. simpl in *. congruence.
Qed.

Lemma dot_run_prefix (m str : jsstring) :
  Forall (fun c => is_line_terminator c = false) m ->
  dot_run (m ++ str) = (m ++ (dot_run str).1, (dot_run str).2).
Proof.
  induction 1 as [|c m Hc _ IH]; simpl.
  - destruct (dot_run str). reflexivity.
  - rewrite Hc, IH. reflexivity.
Qed.

Lemma last_close_none (str : jsstring) :
  RPAREN ∉ str -> last_close str = None.
Proof.
  induction str as [|c rest IH]; intros H; simpl; [reflexivity|].
  apply not_elem_of_cons in H as [Hc Hrest]. rewrite (IH Hrest).
  destruct (N.eqb_spec c RPAREN); [congruence | reflexivity].
Qed.

Lemma last_close_last (m post : jsstring) :
  RPAREN ∉ post -> last_close (m ++ RPAREN :: post) = Some (m, post).
Proof.
  intros Hpost. induction m as [|c m IH]; simpl.
  - rewrite (last_close_none _ Hpost). reflexivity.
  - rewrite IH. reflexivity.
Qed.

Lemma match_group_last (m post : jsstring) :
  m <> [] ->
  Forall (fun c => is_line_terminator c = false) m ->
  RPAREN ∉ post ->
  match_group (m ++ RPAREN :: post) = Some (m, post).
Proof.
  intros Hne Hm Hpost. unfold match_group.
  rewrite dot_run_prefix by exact Hm.
  change (dot_run (RPAREN :: post))
    with (let (run, after) := dot_run post in (RPAREN :: run, after)).
  pose proof (dot_run_concat post) as Hsplit.
  destruct (dot_run post) as [run after]. simpl in Hsplit |- *.
  rewrite last_close_last.
  - destruct m as [|c m]; [congruence|]. rewrite Hsplit. reflexivity.
  - intros Hin. apply Hpost. rewrite <- Hsplit, elem_of_app. auto.
Qed.

Section Frames.
Context (E : Env).

Lemma replace_paren_plain (line : jsstring) :
  LPAREN ∉ line -> FancyReporter.replace_paren E line = line.
Proof.
  induction line as [|c line IH]; intros H; simpl; [reflexivity|].
  apply not_elem_of_cons in H as [Hc Hline].
  destruct (N.eqb_spec c LPAREN); [congruence|].
  rewrite (IH Hline). reflexivity.
Qed.

Lemma replace_paren_group (pre m post : jsstring) :
  LPAREN ∉ pre -> m <> [] ->
  Forall (fun c => is_line_terminator c = false) m ->
  RPAREN ∉ post ->
  FancyReporter.replace_paren E (pre ++ LPAREN :: m ++ RPAREN :: post)
  = pre ++ [LPAREN] ++ cyan E m ++ [RPAREN] ++ post.
Proof.
  intros Hpre Hne Hm Hpost. induction pre as [|c pre IH]; simpl.
  - rewrite match_group_last by assumption. reflexivity.
  - apply not_elem_of_cons in Hpre as [Hc Hpre].
    destruct (N.eqb_spec c LPAREN); [congruence|].
    rewrite (IH Hpre). reflexivity.
Qed.

End Frames.

(** X17: in a frame, the text between the first opening parenthesis and
    the last closing parenthesis is put in cyan as one group, whatever
    parentheses it holds itself, and the parentheses around it stay; a
    frame without an opening parenthesis is left as it is. *)
Theorem fancy_frame_location_colored (E : Env) (pre m post : jsstring) :
  LPAREN ∉ pre ->
  m <> [] ->
  Forall (fun c => is_line_terminator c = false) m ->
  RPAREN ∉ post ->
  FancyReporter.replace_paren E (pre ++ [LPAREN] ++ m ++ [RPAREN] ++ post)
  = pre ++ [LPAREN] ++ cyan E m ++ [RPAREN] ++ post
  /\ FancyReporter.replace_paren E pre = pre.
Proof.
  intros Hpre Hne Hm Hpost. split.
  - apply replace_paren_group; assumption.
  - apply replace_paren_plain, Hpre.
Qed.

Lemma fancy_frame_location_colored_witness :
  FancyReporter.replace_paren ansiEnv (lit "at f (a.js:1:2) (b.js:3:4)")
  = lit "at f (" ++ cyan ansiEnv (lit "a.js:1:2) (b.js:3:4") ++ lit ")".
Proof.
  destruct (fancy_frame_location_colored ansiEnv (lit "at f ")
              (lit "a.js:1:2) (b.js:3:4") []) as (H & _).
  - apply absent_check. reflexivity.
  - discriminate.
  - repeat constructor.
  - apply not_elem_of_nil.
  - exact H.
Defined.

Lemma spaces_run_copies (n : nat) (rest : jsstring) :
  head rest <> Some SP ->
  spaces_run (concat (replicate n [SP]) ++ rest)
  = (concat (replicate n [SP]), rest).
Proof.
  intros Hrest. induction n as [|n IH]; simpl.
  - destruct rest as [|c rest]; [reflexivity|]. simpl.
    destruct (N.eqb_spec c SP) as [->|_]; [|reflexivity].
    exfalso. apply Hrest. reflexivity.
  - rewrite IH. reflexivity.
Qed.

(** X18: a frame that starts with [at] and one or more spaces gets this
    start, with all its spaces, in gray, and the rest of it is kept; a
    frame that does not start with [at] and a space is left as it
    is. *)
Theorem fancy_frame_at_colored (E : Env) (n : Z) (rest : jsstring) :
  0 < n ->
  head rest <> Some SP ->
  FancyReporter.replace_at E (lit "at" ++ copies n [SP] ++ rest)
  = gray E (lit "at" ++ copies n [SP]) ++ rest
  /\ (forall line,
        (forall tail, line <> lit "at " ++ tail) ->
        FancyReporter.replace_at E line = line).
Proof.
  intros Hn Hrest. split.
  - unfold copies. destruct (Z.to_nat n) as [|k] eqn:Hk; [lia|].
    change (lit "at" ++ concat (replicate (S k) [SP]) ++ rest)
      with (97%N :: 116%N :: concat (replicate (S k) [SP]) ++ rest).
    unfold FancyReporter.replace_at.
    rewrite spaces_run_copies by exact Hrest. reflexivity.
  - intros line Hline. unfold FancyReporter.replace_at.
    repeat (match goal with
            | |- context [match ?x with _ => _ end] => is_var x; destruct x
            end; try reflexivity).
    match goal with
    | |- context [spaces_run ?r] => destruct r as [|c r']
    end; [reflexivity|]. simpl.
    destruct (N.eqb_spec c SP) as [->|_]; [|reflexivity].
    exfalso. eapply Hline. reflexivity.
Qed.

Lemma fancy_frame_at_colored_witness :
  FancyReporter.replace_at ansiEnv (lit "at   foo (file.js:1:2)")
  = gray ansiEnv (lit "at   ") ++ lit "foo (file.js:1:2)".
Proof.
  destruct (fancy_frame_at_colored ansiEnv 3 (lit "foo (file.js:1:2)"))
    as (H & _).
  - lia.
  - discriminate.
  - exact H.
Defined.

Lemma highlightBackticks_prefix (E : Env) (pre str : jsstring) :
  BACKTICK ∉ pre ->
  FancyReporter.highlightBackticks E (pre ++ str)
  = pre ++ FancyReporter.highlightBackticks E str.
Proof.
  induction pre as [|c pre IH]; intros H; [reflexivity|].
  apply not_elem_of_cons in H as [Hc Hpre]. simpl.
  rewrite highlightBackticks_cons by congruence.
  rewrite (IH Hpre). reflexivity.
Qed.

Lemma highlightBackticks_lone (E : Env) (rest : jsstring) :
  BACKTICK ∉ rest ->
  FancyReporter.highlightBackticks E (BACKTICK :: rest) = BACKTICK :: rest.
Proof.
  intros H. unfold FancyReporter.highlightBackticks. simpl.
  rewrite (until_backtick_plain _ H).
  fold (FancyReporter.highlightBackticks E rest).
  rewrite (highlightBackticks_plain E rest H).
  destruct rest; reflexivity.
Qed.

(** X19: a backtick without a partner stays in the text, and so does a
    pair of backticks with nothing between them: highlighting needs a
    span that is not empty. *)
Theorem highlightBackticks_keeps_unmatched (E : Env) (pre rest : jsstring) :
  BACKTICK ∉ pre ->
  BACKTICK ∉ rest ->
  FancyReporter.highlightBackticks E (pre ++ [BACKTICK] ++ rest)
  = pre ++ [BACKTICK] ++ rest
  /\ FancyReporter.highlightBackticks E (pre ++ [BACKTICK; BACKTICK] ++ rest)
     = pre ++ [BACKTICK; BACKTICK] ++ rest.
Proof.
  intros Hpre Hrest. split.
  - rewrite highlightBackticks_prefix by exact Hpre.
    simpl app at 2. rewrite highlightBackticks_lone by exact Hrest.
    reflexivity.
  - rewrite highlightBackticks_prefix by exact Hpre. f_equal.
    change (FancyReporter.highlightBackticks E ([BACKTICK; BACKTICK] ++ rest))
      with (BACKTICK :: FancyReporter.highlightBackticks E (BACKTICK :: rest)).
    rewrite highlightBackticks_lone by exact Hrest. reflexivity.
Qed.

Lemma highlightBackticks_keeps_unmatched_witness :
  FancyReporter.highlightBackticks ansiEnv (lit "it`s") = lit "it`s"
  /\ FancyReporter.highlightBackticks ansiEnv (lit "a `` b") = lit "a `` b".
Proof.
  destruct (highlightBackticks_keeps_unmatched ansiEnv (lit "it") (lit "s"))
    as (Hlone & _); try (apply absent_check; reflexivity).
  destruct (highlightBackticks_keeps_unmatched ansiEnv (lit "a ") (lit " b"))
    as (_ & Hpair); try (apply absent_check; reflexivity).
  split; [exact Hlone | exact Hpair].
Defined.

(** ** Highlighting in the line of a record *)

Lemma join_split_nl (str : jsstring) : join [NL] (split_nl str) = str.
Proof.
  induction str as [|c rest IH]; [reflexivity|]. simpl.
  pose proof (split_nl_not_nil rest) as Hne.
  destruct (N.eqb_spec c NL) as [->|_].
  - destruct (split_nl rest) as [|line lines]; [congruence|].
    change (join [NL] ([] :: line :: lines))
      with (NL :: join [NL] (line :: lines)).
    rewrite IH. reflexivity.
  - destruct (split_nl rest) as [|line lines]; [congruence|].
    destruct lines as [|line' lines]; simpl in *; rewrite <- IH;
      reflexivity.
Qed.

(** The first line of a text, and what the Fancy reporter appends to the
    line for the lines after it: the rest of the text, from its first
    line break on. *)
Lemma split_first_rest (first rest : jsstring) :
  NL ∉ first -> rest = [] \/ (exists more, rest = NL :: more) ->
  default [] (head (split_nl (first ++ rest))) = first
  /\ match tail (split_nl (first ++ rest)) with
     | [] => []
     | _ :: _ => [NL] ++ join [NL] (tail (split_nl (first ++ rest)))
     end = rest.
Proof.
  intros Hfirst [->|(more & ->)].
  - rewrite app_nil_r, (split_nl_line _ Hfirst). split; reflexivity.
  - rewrite (split_nl_app _ _ Hfirst). split; [reflexivity|].
    cbn [tail]. pose proof (split_nl_not_nil more) as Hne.
    rewrite join_split_nl.
    destruct (split_nl more); [congruence | reflexivity].
Qed.

(** C9, as amended: [highlightBackticks] scans its text from the left. A
    character that is not a backtick is kept. A backtick followed by a
    text without backticks that is not empty (it may hold line breaks)
    and by a closing backtick is replaced, with that text and the
    closing backtick, by the text in cyan: the two delimiters are
    removed, and the scan goes on after the closing one. A backtick that
    is followed by another one, or by no other backtick, is kept. The
    Fancy reporter highlights the first line of the message in the
    [left] segment of the line, and the rest of the message, from its
    first line break on, as one text that it appends to the line; of a
    box record it highlights the first line only. *)
Theorem highlightBackticks_removes_delimiters (E : Env) :
  let highlighted := FancyReporter.highlightBackticks E in
  highlighted [] = []
  /\ (forall c str,
        c <> BACKTICK -> highlighted (c :: str) = c :: highlighted str)
  /\ (forall m rest,
        m <> [] -> BACKTICK ∉ m ->
        highlighted (BACKTICK :: m ++ BACKTICK :: rest)
        = cyan E m ++ highlighted rest)
  /\ (forall rest,
        highlighted (BACKTICK :: BACKTICK :: rest)
        = BACKTICK :: highlighted (BACKTICK :: rest))
  /\ (forall rest,
        BACKTICK ∉ rest -> highlighted (BACKTICK :: rest) = BACKTICK :: rest)
  /\ (forall fuel st logObj opts first rest type,
        log_type logObj <> lit "box" ->
        NL ∉ first -> rest = [] \/ (exists more, rest = NL :: more) ->
        FancyReporter.formatArgs E fuel st (log_args logObj) opts
        = Some (Normal (first ++ rest)) ->
        FancyReporter.formatType E logObj (FancyReporter.isBadge logObj) opts
        = Normal type ->
        exists line,
          FancyReporter.compose_line E
            (filterAndJoin [type; highlighted first])
            (FancyReporter.right E logObj opts) opts
          = Normal line
          /\ FancyReporter.formatLogObj E fuel st logObj opts
             = Some (Normal
                       (let trace :=
                          if bool_decide (log_type logObj = lit "trace")
                          then returned []
                                 (FancyReporter.formatStack E
                                    (captureStack E
                                       (lit "Trace: "
                                        ++ default (lit "undefined")
                                             (log_message logObj)))
                                    opts)
                          else [] in
                        let body := line ++ highlighted rest ++ trace in
                        if FancyReporter.isBadge logObj
                        then [NL] ++ body ++ [NL]
                        else body)))
  /\ (forall fuel st logObj opts first rest,
        log_type logObj = lit "box" ->
        NL ∉ first -> rest = [] \/ (exists more, rest = NL :: more) ->
        FancyReporter.formatArgs E fuel st (log_args logObj) opts
        = Some (Normal (first ++ rest)) ->
        FancyReporter.formatLogObj E fuel st logObj opts
        = Some (box E (highlighted first)
                  {| title := log_title logObj; style := log_style logObj |})).
Proof.
  intros highlighted. unfold highlighted.
  split; [reflexivity|].
  split; [intros c str Hc; apply highlightBackticks_cons, Hc|].
  split; [intros m rest Hne Hm; apply highlightBackticks_match; assumption|].
  split; [reflexivity|].
  split; [intros rest Hrest; apply highlightBackticks_lone, Hrest|].
  split.
  - intros fuel st logObj opts first rest type Htype Hfirst Hrest Htext Hty.
    destruct (split_first_rest first rest Hfirst Hrest) as (Hhead & Htail).
    destruct (compose_line_returns E
                (filterAndJoin [type; FancyReporter.highlightBackticks E first])
                (FancyReporter.right E logObj opts) opts) as (line & Hline).
    exists line. split; [exact Hline|].
    unfold FancyReporter.formatLogObj. rewrite Htext. cbn [obind].
    rewrite bool_decide_eq_false_2 by exact Htype.
    rewrite Hty. cbn [obind]. rewrite Hhead, Htail.
    unfold FancyReporter.left. rewrite Hline. cbn [obind].
    destruct (bool_decide (log_type logObj = lit "trace")).
    + unfold FancyReporter.formatStack. cbn [obind returned].
      rewrite <- !app_assoc. reflexivity.
    + cbn [obind]. rewrite app_nil_r. reflexivity.
  - intros fuel st logObj opts first rest Htype Hfirst Hrest Htext.
    destruct (split_first_rest first rest Hfirst Hrest) as (Hhead & _).
    unfold FancyReporter.formatLogObj. rewrite Htext. cbn [obind].
    rewrite bool_decide_eq_true_2 by exact Htype.
    rewrite Hhead. reflexivity.
Qed.

Lemma highlightBackticks_removes_delimiters_witness :
  let logObj :=
    with_args (sampleRecord "info" 3)
      [VString (lit "run `npm test` or `npm run lint` now")] in
  FancyReporter.highlightBackticks ansiEnv (lit "`npm test` now")
  = cyan ansiEnv (lit "npm test") ++ lit " now"
  /\ FancyReporter.formatLogObj ansiEnv 1 noObjects logObj
       (sampleOptions 0 None)
     = Some (Normal
               (gray ansiEnv (lit "[" ++ gray ansiEnv (lit "app") ++ lit "]") ++ lit " "
                ++ cyan ansiEnv (FancyReporter.s ansiEnv 0x2139 0x69) ++ lit " run "
                ++ cyan ansiEnv (lit "npm test") ++ lit " or "
                ++ cyan ansiEnv (lit "npm run lint") ++ lit " now")).
Proof.
  intros logObj.
  destruct (highlightBackticks_removes_delimiters ansiEnv)
    as (_ & _ & Hspan & _ & _ & Hline & _).
  split.
  - transitivity
      (cyan ansiEnv (lit "npm test")
       ++ FancyReporter.highlightBackticks ansiEnv (lit " now"));
      [|vm_compute; reflexivity].
    apply (Hspan (lit "npm test") (lit " now"));
      [discriminate | apply absent_check; reflexivity].
  - destruct (Hline 1%nat noObjects logObj (sampleOptions 0 None)
                (lit "run `npm test` or `npm run lint` now") []
                (returned []
                   (FancyReporter.formatType ansiEnv logObj false
                      (sampleOptions 0 None))))
      as (line & Hcompose & Hout).
    + discriminate.
    + apply absent_check. reflexivity.
    + left. reflexivity.
    + reflexivity.
    + reflexivity.
    + rewrite Hout. vm_compute in Hcompose. injection Hcompose as <-.
      vm_compute. reflexivity.
Defined.

(** C9 fails as it stands: in the message below the backtick of [it`s]
    opens a span that the backtick before [code] closes, so that [code]
    keeps its closing backtick and is not highlighted; and in a message
    of several lines a span reaches over the line break. *)
Lemma highlightBackticks_removes_delimiters_counterexample :
  let logObj :=
    with_args (sampleRecord "info" 3) [VString (lit "it`s `code`")] in
  let lines :=
    with_args (sampleRecord "info" 3)
      [VString (lit "one" ++ [NL] ++ lit "it`s two" ++ [NL]
                ++ lit "run `c` three")] in
  FancyReporter.highlightBackticks ansiEnv (lit "it`s `code`")
  = lit "it" ++ cyan ansiEnv (lit "s ") ++ lit "code`"
  /\ FancyReporter.formatLogObj ansiEnv 1 noObjects logObj
       (sampleOptions 0 None)
     = Some (Normal
               (gray ansiEnv (lit "[" ++ gray ansiEnv (lit "app") ++ lit "]") ++ lit " "
                ++ cyan ansiEnv (FancyReporter.s ansiEnv 0x2139 0x69) ++ lit " it"
                ++ cyan ansiEnv (lit "s ") ++ lit "code`"))
  /\ FancyReporter.formatLogObj ansiEnv 1 noObjects lines
       (sampleOptions 0 None)
     = Some (Normal
               (gray ansiEnv (lit "[" ++ gray ansiEnv (lit "app") ++ lit "]") ++ lit " "
                ++ cyan ansiEnv (FancyReporter.s ansiEnv 0x2139 0x69) ++ lit " one" ++ [NL]
                ++ lit "it"
                ++ cyan ansiEnv (lit "s two" ++ [NL] ++ lit "run ")
                ++ lit "c` three")).
Proof.
  intros logObj lines. repeat split; vm_compute; reflexivity.
Qed.

(** * Properties of [createConsola] *)

(** X20: the level of a new instance is [options.level] when it is
    given; otherwise it is the integer that [CONSOLA_LEVEL] parses to,
    unless that is 0 or not a number: then, as when the variable is not
    set, it is the default level (Debug when debugging, else Warn under
    test, else Info). So the variable cannot select level 0, while
    [options.level] can. *)
Theorem createConsola_level (env : Index.StdEnv) (levels : Index.LogLevels)
    (parseInt : jsstring -> option Z) (value : jsstring)
    (options : Index.Options) :
  let created := Index.createConsola env levels parseInt (Some value) options in
  let unset := Index.createConsola env levels parseInt None options in
  let by_default :=
    if Index.isDebug env then Index.Debug levels
    else if Index.isTest env then Index.Warn levels
    else Index.Info_ levels in
  (forall l, Index.level options = Some l ->
     Index.created_level created = l /\ Index.created_level unset = l)
  /\ (Index.level options = None ->
      Index.created_level unset = by_default
      /\ (parseInt value = None \/ parseInt value = Some 0 ->
          Index.created_level created = by_default)
      /\ (forall n, parseInt value = Some n -> n <> 0 -> truthy value = true ->
          Index.created_level created = n)).
Proof.
  intros created unset by_default. unfold created, unset, Index.createConsola.
  split.
  - intros l ->. simpl. auto.
  - intros ->. simpl. split; [reflexivity|]. split.
    + intros Hparse. destruct (truthy value); [|reflexivity].
      unfold Index.parsed_or. destruct Hparse as [-> | ->]; reflexivity.
    + intros n Hn Hnz ->. unfold Index.parsed_or. rewrite Hn.
      destruct (Z.eqb_spec n 0); [contradiction | reflexivity].
Qed.

Lemma createConsola_level_witness :
  let env := {| Index.isDebug := false; Index.isTest := true;
                Index.isCI := false |} in
  let levels := {| Index.Debug := 4; Index.Warn := 1; Index.Info_ := 3 |} in
  let none := {| Index.level := None; Index.reporters := None |} in
  Index.created_level
    (Index.createConsola env levels Index.parseDecimal (Some (lit "0")) none)
  = 1
  /\ Index.created_level
       (Index.createConsola env levels Index.parseDecimal (Some (lit "5"))
          none)
     = 5
  /\ Index.created_level
       (Index.createConsola env levels Index.parseDecimal (Some (lit "5"))
          {| Index.level := Some 0; Index.reporters := None |})
     = 0.
Proof.
  intros env levels none.
  destruct (createConsola_level env levels Index.parseDecimal (lit "0") none)
    as (_ & Hzero).
  destruct (createConsola_level env levels Index.parseDecimal (lit "5") none)
    as (_ & Hfive).
  destruct (createConsola_level env levels Index.parseDecimal (lit "5")
              {| Index.level := Some 0; Index.reporters := None |})
    as (Hoption & _).
  destruct (Hzero eq_refl) as (_ & Hignored & _).
  destruct (Hfive eq_refl) as (_ & _ & Hparsed).
  split; [|split].
  - apply Hignored. right. reflexivity.
  - apply (Hparsed 5); [reflexivity | discriminate | reflexivity].
  - apply (Hoption 0). reflexivity.
Defined.
